(** * StackMint front end: modal flows, collection filter and pagination hook

  A shallow embedding of the client-side logic of the StackMint NFT
  marketplace (React/TypeScript) and the properties its specification
  states about it.

  Conventions of the embedding.
  - A JavaScript [number] is an IEEE 754 binary64 value, modelled by the
    Standard Library's [spec_float] with precision 53 and maximal exponent
    1024; arithmetic is the correctly rounded arithmetic of [SpecFloat].
    Page counters of the pagination hook are integers and are kept in [Z].
  - A JavaScript string is a [string], one [ascii] per UTF-16 code unit, so
    the model covers the strings whose code units are below 256.
  - An object used as a dictionary ([Record<string, T>]) is a [gmap string T];
    keys inherited from [Object.prototype] are not modelled.
  - A React component is its state record together with one function per
    event handler; a handler returns the next state and, where it calls a
    callback of the parent, the list of calls it made.  An awaited promise
    is an input of the handler (its outcome). *)

From Stdlib Require Import ZArith NArith Ascii String List Bool Lia.
From Stdlib Require Import Floats.SpecFloat.
From stdpp Require Import base option list strings pretty gmap fin_maps fin_sets.

Set Default Proof Using "Type".

(* ===================================================================== *)
(** * Part I: the model *)
(* ===================================================================== *)

(** ** JavaScript numbers *)

Module JS.

Definition number : Type := spec_float.

Definition prec : Z := 53.
Definition emax : Z := 1024.

(** [num m e] is the double nearest to [m * 2^e]. *)
Definition num (m e : Z) : number := binary_normalize prec emax m e false.
Definition of_Z (n : Z) : number := num n 0.

Definition NaN : number := S754_nan.

Definition add : number → number → number := SFadd prec emax.
Definition sub : number → number → number := SFsub prec emax.
Definition mul : number → number → number := SFmul prec emax.
Definition div : number → number → number := SFdiv prec emax.

(** A decimal literal [m / 10^k] of the source text denotes the double
    nearest to that rational; for [m] and [10^k] below [2^53] this is the
    correctly rounded quotient of the two integers. *)
Definition dec (m : Z) (k : nat) : number := div (of_Z m) (of_Z (10 ^ Z.of_nat k)).

(** Relational operators: any comparison with [NaN] is [false]. *)
Definition lt (a b : number) : bool := SFltb a b.
Definition le (a b : number) : bool := SFleb a b.
Definition gt (a b : number) : bool := SFltb b a.
Definition ge (a b : number) : bool := SFleb b a.

Definition is_nan (x : number) : bool :=
  match x with S754_nan => true | _ => false end.

(** [ToBoolean]: [+0], [-0] and [NaN] are falsy. *)
Definition truthy (x : number) : bool :=
  match x with
  | S754_zero _ | S754_nan => false
  | _ => true
  end.

(** [x || y] on numbers. *)
Definition or_else (x y : number) : number := if truthy x then x else y.

(** [a || b || ...] where the operands may be [undefined]. *)
Definition opt_truthy (x : option number) : bool :=
  match x with Some v => truthy v | None => false end.

(** [Math.min] and [Math.max]: [NaN] is contagious and [-0] is below [+0]. *)
Definition Math_min (a b : number) : number :=
  match SFcompare a b with
  | None => NaN
  | Some Lt => a
  | Some Gt => b
  | Some Eq => match a with S754_zero true => a | _ => b end
  end.

Definition Math_max (a b : number) : number :=
  match SFcompare a b with
  | None => NaN
  | Some Lt => b
  | Some Gt => a
  | Some Eq => match a with S754_zero false => a | _ => b end
  end.

(** Library functions of the runtime that the repository calls but does not
    define. The development is parametric in them. *)
Class Builtins : Type := {
  parseFloat : string → number;
  (** [Number.prototype.toString] and the conversion of a number inside a
      template literal *)
  numberToString : number → string;
  (** [Number.prototype.toFixed] *)
  toFixed : number → nat → string;
}.

(** ** Strings *)

Definition code (c : ascii) : N := N_of_ascii c.

Definition in_range (lo hi c : ascii) : bool :=
  ((code lo <=? code c) && (code c <=? code hi))%N.

Definition is_lower (c : ascii) : bool := in_range "a" "z" c.
Definition is_upper (c : ascii) : bool := in_range "A" "Z" c.
Definition is_digit (c : ascii) : bool := in_range "0" "9" c.

Definition upper_char (c : ascii) : ascii :=
  if is_lower c then ascii_of_N (code c - 32) else c.
Definition lower_char (c : ascii) : ascii :=
  if is_upper c then ascii_of_N (code c + 32) else c.

Fixpoint map_string (f : ascii → ascii) (s : string) : string :=
  match s with
  | EmptyString => EmptyString
  | String c s' => String (f c) (map_string f s')
  end.

(** [String.prototype.toUpperCase]. The letters [a]-[z] go to [A]-[Z] and
    every other code unit below 128 is kept, as in the runtime. Code units
    from 128 on are kept as well: the Unicode tables for them are not part
    of this model (none of them upper-cases to an ASCII letter other than
    [I] and [S]). *)
Definition toUpperCase (s : string) : string := map_string upper_char s.

(** Truthiness of a string: only the empty string is falsy. *)
Definition nonempty (s : string) : bool :=
  match s with EmptyString => false | _ => true end.

(** [String.prototype.startsWith] *)
Definition startsWith (s p : string) : bool := String.prefix p s.

(** White space in the sense of [String.prototype.trim], below 256:
    TAB, LF, VT, FF, CR, SP and NBSP. *)
Definition is_white (c : ascii) : bool :=
  in_range "009" "013" c || (code c =? 32)%N || (code c =? 160)%N.

Fixpoint trimStart (s : string) : string :=
  match s with
  | String c s' => if is_white c then trimStart s' else s
  | EmptyString => EmptyString
  end.

Fixpoint trimEnd (s : string) : string :=
  match s with
  | String c s' =>
      match trimEnd s' with
      | EmptyString => if is_white c then EmptyString else String c EmptyString
      | t => String c t
      end
  | EmptyString => EmptyString
  end.

Definition trim (s : string) : string := trimEnd (trimStart s).

(** [s || undefined] *)
Definition or_undefined (s : string) : option string :=
  if nonempty s then Some s else None.

(** [a || b] where [a : string | null] *)
Definition str_or (a : option string) (b : string) : string :=
  match a with
  | Some s => if nonempty s then s else b
  | None => b
  end.

End JS.

(** ** Regular expressions

  The two patterns of the transfer modal are anchored on both sides
  ([^...$], no [m] flag), so [RegExp.prototype.test] is a match of the whole
  string. Matching is by derivatives. *)

Module Regex.

Inductive regex : Type :=
| Void                         (* matches nothing *)
| Eps                          (* matches the empty string *)
| Cls (p : ascii → bool)       (* one code unit of a class *)
| Cat (r1 r2 : regex)
| Alt (r1 r2 : regex)
| Star (r : regex).

Definition Plus (r : regex) : regex := Cat r (Star r).

(** [r{n}] *)
Fixpoint Rep (n : nat) (r : regex) : regex :=
  match n with
  | O => Eps
  | S n' => Cat r (Rep n' r)
  end.

Definition chr (c : ascii) : ascii → bool := λ x, bool_decide (x = c).

(** The [i] flag: [x] is accepted when some member of the class has the
    same canonical (upper-case) form as [x]. *)
Definition fold_case (p : ascii → bool) : ascii → bool :=
  λ x, p x || p (JS.upper_char x) || p (JS.lower_char x).

Fixpoint nullable (r : regex) : bool :=
  match r with
  | Void => false
  | Eps => true
  | Cls _ => false
  | Cat r1 r2 => nullable r1 && nullable r2
  | Alt r1 r2 => nullable r1 || nullable r2
  | Star _ => true
  end.

Fixpoint deriv (c : ascii) (r : regex) : regex :=
  match r with
  | Void => Void
  | Eps => Void
  | Cls p => if p c then Eps else Void
  | Cat r1 r2 =>
      if nullable r1
      then Alt (Cat (deriv c r1) r2) (deriv c r2)
      else Cat (deriv c r1) r2
  | Alt r1 r2 => Alt (deriv c r1) (deriv c r2)
  | Star r1 => Cat (deriv c r1) (Star r1)
  end.

Fixpoint test (r : regex) (s : string) : bool :=
  match s with
  | EmptyString => nullable r
  | String c s' => test (deriv c r) s'
  end.

(** The language of a regular expression, for reasoning. *)
Inductive matches : regex → string → Prop :=
| m_eps : matches Eps ""
| m_cls p c : p c = true → matches (Cls p) (String c "")
| m_cat r1 r2 s1 s2 : matches r1 s1 → matches r2 s2 → matches (Cat r1 r2) (s1 +:+ s2)
| m_alt_l r1 r2 s : matches r1 s → matches (Alt r1 r2) s
| m_alt_r r1 r2 s : matches r2 s → matches (Alt r1 r2) s
| m_star_nil r : matches (Star r) ""
| m_star_cons r s1 s2 : matches r s1 → matches (Star r) s2 → matches (Star r) (s1 +:+ s2).

(** Every class that occurs in [r] lies within [p]. *)
Fixpoint alphabet_within (p : ascii → bool) (r : regex) : Prop :=
  match r with
  | Void | Eps => True
  | Cls q => ∀ c, q c = true → p c = true
  | Cat r1 r2 | Alt r1 r2 => alphabet_within p r1 ∧ alphabet_within p r2
  | Star r1 => alphabet_within p r1
  end.

(** Every code unit of [s] is in the class [p]. *)
Fixpoint all_chars (p : ascii → bool) (s : string) : bool :=
  match s with
  | EmptyString => true
  | String c s' => p c && all_chars p s'
  end.

End Regex.

(** ** CollectionFilter (frontend/src/components/CollectionFilter.tsx) *)

Module CollectionFilter.
Import JS.

Inductive RarityLevel := Common | Uncommon | Rare | Epic | Legendary | Mythic.
Inductive StatusOption := BuyNow | OnAuction | New | HasOffers.
Inductive Currency := STX | USD.

#[global] Instance RarityLevel_eq_dec : EqDecision RarityLevel.
Proof. solve_decision. Defined.
#[global] Instance StatusOption_eq_dec : EqDecision StatusOption.
Proof. solve_decision. Defined.
#[global] Instance Currency_eq_dec : EqDecision Currency.
Proof. solve_decision. Defined.

Record FilterState : Type := mkFilterState {
  priceRange : number * number;
  rarities : list RarityLevel;
  statuses : list StatusOption;
  traits : gmap string (list string);
  currency : Currency;
  sortBy : string;
}.

(** [const DEFAULT_PRICE_RANGE: [number, number] = [0, 1000]] *)
Definition DEFAULT_PRICE_RANGE : number * number := (of_Z 0, of_Z 1000).

(** The default of the [maxPrice] prop. *)
Definition default_maxPrice : number := of_Z 1000.

Record Props : Type := mkProps {
  filters : FilterState;
  maxPrice : number;
}.

(** The component's own state: the two text buffers of the price inputs. *)
Record Local : Type := mkLocal {
  localPriceMin : string;
  localPriceMax : string;
}.

(** What a handler did: the states it passed to [onFiltersChange], in
    order, and the component state it left. *)
Record Outcome : Type := mkOutcome {
  emitted : list FilterState;
  local : Local;
}.

Definition set_rarities (v : list RarityLevel) (f : FilterState) : FilterState :=
  mkFilterState (priceRange f) v (statuses f) (traits f) (currency f) (sortBy f).
Definition set_statuses (v : list StatusOption) (f : FilterState) : FilterState :=
  mkFilterState (priceRange f) (rarities f) v (traits f) (currency f) (sortBy f).
Definition set_traits (v : gmap string (list string)) (f : FilterState) : FilterState :=
  mkFilterState (priceRange f) (rarities f) (statuses f) v (currency f) (sortBy f).
Definition set_priceRange (v : number * number) (f : FilterState) : FilterState :=
  mkFilterState v (rarities f) (statuses f) (traits f) (currency f) (sortBy f).

(** [toggleRarity]: the state handed to [onFiltersChange]. *)
Definition toggleRarity (f : FilterState) (rarity : RarityLevel) : FilterState :=
  let newRarities :=
    if bool_decide (rarity ∈ rarities f)
    then filter (λ r, r ≠ rarity) (rarities f)
    else rarities f ++ [rarity] in
  set_rarities newRarities f.

Definition toggleStatus (f : FilterState) (status : StatusOption) : FilterState :=
  let newStatuses :=
    if bool_decide (status ∈ statuses f)
    then filter (λ s, s ≠ status) (statuses f)
    else statuses f ++ [status] in
  set_statuses newStatuses f.

(** [filters.traits[traitType] || []] *)
Definition currentValues (m : gmap string (list string)) (traitType : string) : list string :=
  default [] (m !! traitType).

Definition newValues (m : gmap string (list string)) (traitType value : string) : list string :=
  let cur := currentValues m traitType in
  if bool_decide (value ∈ cur)
  then filter (λ v, v ≠ value) cur
  else cur ++ [value].

Definition newTraits (m : gmap string (list string)) (traitType value : string)
  : gmap string (list string) :=
  let nv := newValues m traitType value in
  if bool_decide (length nv = 0)
  then delete traitType m
  else <[traitType := nv]> m.

(** [toggleTraitValue]: the state handed to [onFiltersChange]. *)
Definition toggleTraitValue (f : FilterState) (traitType value : string) : FilterState :=
  set_traits (newTraits (traits f) traitType value) f.

Section WithBuiltins.
Context `{Builtins}.

  (** [applyPriceRange], bound to the blur of either price input and to the
      Apply button. *)
Definition applyPriceRange (p : Props) (l : Local) : Outcome :=
    let min := or_else (parseFloat (localPriceMin l)) (of_Z 0) in
    let max := or_else (parseFloat (localPriceMax l)) (maxPrice p) in
    mkOutcome [set_priceRange (Math_min min max, Math_max min max) (filters p)] l.

Definition clearAllFilters (p : Props) (l : Local) : Outcome :=
    mkOutcome
      [mkFilterState DEFAULT_PRICE_RANGE [] [] ∅ STX "recent"]
      (mkLocal "0" (numberToString (maxPrice p))).

  (** [activeFilterCount] *)
Definition activeFilterCount (p : Props) : nat :=
    let f := filters p in
    (if gt (fst (priceRange f)) (of_Z 0) || lt (snd (priceRange f)) (maxPrice p)
     then 1 else 0)
    + length (rarities f) + length (statuses f) + size (traits f).
End WithBuiltins.

(** The data model of the specification reads a trait's array as the set
    of its selected values. *)
Definition selection (m : gmap string (list string)) : gmap string (gset string) :=
  list_to_set <$> m.

(** Invariant of [FilterState]: no trait is mapped to an empty selection. *)
Definition traits_wf (m : gmap string (list string)) : Prop :=
  map_Forall (λ _ l, l ≠ []) m.

#[global] Instance traits_wf_dec m : Decision (traits_wf m).
Proof. unfold traits_wf. apply _. Defined.

(** The array that the three toggles build:
    [l.includes(x) ? l.filter(y => y !== x) : [...l, x]]. *)
Definition toggled {A : Type} `{EqDecision A} (x : A) (l : list A) : list A :=
  if bool_decide (x ∈ l) then filter (λ y, y ≠ x) l else l ++ [x].

(** The component rendered again with the state it handed to
    [onFiltersChange]. *)
Definition with_filters (f : FilterState) (p : Props) : Props := mkProps f (maxPrice p).

End CollectionFilter.


(** ** BurnNFTModal *)

Module BurnNFTModal.
Import JS.

(** [const BURN_GAS_ESTIMATE = 0.0003] *)
Definition BURN_GAS_ESTIMATE : number := dec 3 4.

Record NFTData : Type := mkNFTData {
  id : string;
  name : string;
  image : option string;
  collection : string;
  tokenId : number;
}.

Record Props : Type := mkProps {
  isOpen : bool;
  nft : NFTData;
  isLoading : bool;
  userBalance : number;
}.

Record State : Type := mkState {
  confirmText : string;
  isSubmitting : bool;
  error : option string;
}.

Inductive Call : Type :=
| OnBurn (nftId : string) (tokenId : number)
| OnClose.

Definition requiredConfirmText : string := "BURN".

Definition isConfirmed (st : State) : bool :=
  bool_decide (toUpperCase (confirmText st) = requiredConfirmText).

Definition hasEnoughGas (p : Props) : bool := ge (userBalance p) BURN_GAS_ESTIMATE.

(** The effect on [isOpen]: the form is reset when the modal opens. *)
Definition onOpen (st : State) : State := mkState "" (isSubmitting st) None.

(** [onChange] of the confirmation input *)
Definition setConfirmText (v : string) (st : State) : State :=
  mkState v (isSubmitting st) (error st).

(** [handleBurn]. [ok] is the outcome of the promise returned by [onBurn]. *)
Definition handleBurn (p : Props) (ok : bool) (st : State) : State * list Call :=
  if negb (isConfirmed st) || negb (hasEnoughGas p) then (st, [])
  else
    let call := OnBurn (id (nft p)) (tokenId (nft p)) in
    if ok
    then (mkState (confirmText st) false None, [call; OnClose])
    else (mkState (confirmText st) false (Some "Failed to burn NFT. Please try again."),
          [call]).

Definition loading (p : Props) (st : State) : bool := isLoading p || isSubmitting st.

(** The [disabled] attribute of the "Burn Forever" button. *)
Definition burn_disabled (p : Props) (st : State) : bool :=
  loading p st || negb (isConfirmed st) || negb (hasEnoughGas p).

End BurnNFTModal.

(** ** CancelListingModal *)

Module CancelListingModal.
Import JS.

(** [const CANCEL_GAS_ESTIMATE = 0.0004] *)
Definition CANCEL_GAS_ESTIMATE : number := dec 4 4.

Inductive ListingType : Type := Fixed | Auction.

(** Dates are kept as their time value, the milliseconds since the epoch. *)
Record ListingData : Type := mkListingData {
  id : string;
  nftId : string;
  nftName : string;
  nftImage : option string;
  collection : string;
  price : number;
  listingType : ListingType;
  listedAt : Z;
  expiresAt : option Z;
  highestBid : option number;
  bidCount : option number;
}.

Record Props : Type := mkProps {
  isOpen : bool;
  listing : ListingData;
  isLoading : bool;
  userBalance : number;
}.

Record State : Type := mkState {
  isSubmitting : bool;
  error : option string;
}.

Inductive Call : Type :=
| OnCancel (listingId : string)
| OnClose.

Definition MS_PER_HOUR : Z := 1000 * 60 * 60.
Definition MS_PER_DAY : Z := 1000 * 60 * 60 * 24.

(** [formatDuration date], with the reading of the clock ([new Date()]) as
    the argument [now]. Both are time values of valid dates; their
    difference and the quotients are integers below [2^53], on which the
    arithmetic of numbers is exact: [%] is the remainder that takes the sign
    of the dividend, and [Math.floor] of a quotient rounds down. *)
Definition formatDuration (now date : Z) : string :=
  let diffMs := (date - now)%Z in
  let diffDays := (diffMs / MS_PER_DAY)%Z in
  let diffHours := (Z.rem diffMs MS_PER_DAY / MS_PER_HOUR)%Z in
  if (0 <? diffDays)%Z
  then pretty diffDays +:+ "d " +:+ pretty diffHours +:+ "h remaining"
  else if (0 <? diffHours)%Z
  then pretty diffHours +:+ "h remaining"
  else "Expiring soon".

Definition hasEnoughGas (p : Props) : bool := ge (userBalance p) CANCEL_GAS_ESTIMATE.

(** [listing.listingType === 'auction' && (listing.bidCount || 0) > 0] *)
Definition hasActiveBids (p : Props) : bool :=
  match listingType (listing p) with
  | Auction =>
      gt (if opt_truthy (bidCount (listing p))
          then default NaN (bidCount (listing p)) else of_Z 0)
         (of_Z 0)
  | Fixed => false
  end.

(** The effect on [isOpen]: the error is cleared when the modal opens. *)
Definition onOpen (st : State) : State := mkState (isSubmitting st) None.

(** [handleCancel]. [ok] is the outcome of the promise returned by
    [onCancel]. *)
Definition handleCancel (p : Props) (ok : bool) (st : State) : State * list Call :=
  if negb (hasEnoughGas p) then (st, [])
  else
    let call := OnCancel (id (listing p)) in
    if ok
    then (mkState false None, [call; OnClose])
    else (mkState false (Some "Failed to cancel listing. Please try again."), [call]).

Definition loading (p : Props) (st : State) : bool := isLoading p || isSubmitting st.

(** The [disabled] attribute of the "Cancel Listing" button. *)
Definition cancel_disabled (p : Props) (st : State) : bool :=
  loading p st || negb (hasEnoughGas p).

End CancelListingModal.

(** ** ListNFTModal *)

Module ListNFTModal.
Import JS.

Definition MARKETPLACE_FEE_PERCENT : number := dec 25 1.
Definition CREATOR_ROYALTY_PERCENT : number := of_Z 5.
Definition MIN_LISTING_PRICE : number := dec 1 3.

Section WithBuiltins.
Context `{Builtins}.

(** The fee breakdown, recomputed at every render from the [price] field. *)
Definition priceValue (price : string) : number :=
  or_else (parseFloat price) (of_Z 0).
Definition marketplaceFee (price : string) : number :=
  mul (priceValue price) (div MARKETPLACE_FEE_PERCENT (of_Z 100)).
Definition creatorRoyalty (price : string) : number :=
  mul (priceValue price) (div CREATOR_ROYALTY_PERCENT (of_Z 100)).
Definition youReceive (price : string) : number :=
  sub (sub (priceValue price) (marketplaceFee price)) (creatorRoyalty price).


End WithBuiltins.

(** The form of the modal. *)

Inductive ListingType : Type := Fixed | Auction.

Record NFTData : Type := mkNFTData {
  id : string;
  name : string;
  image : option string;
  collection : string;
  lastPrice : option number;
  floorPrice : option number;
}.

Record Props : Type := mkProps {
  isOpen : bool;
  nft : NFTData;
  isLoading : bool;
  userBalance : number;
}.

Record State : Type := mkState {
  listingType : ListingType;
  price : string;
  duration : number;
  reservePrice : string;
  buyNowPrice : string;
  errors : gmap string string;
  isSubmitting : bool;
}.

Record ListingData : Type := mkListingData {
  ld_nftId : string;
  ld_price : number;
  ld_listingType : ListingType;
  ld_duration : number;
  ld_reservePrice : option number;
  ld_buyNowPrice : option number;
}.

Inductive Call : Type :=
| OnList (d : ListingData)
| OnClose.

(** [const estimatedGas = 0.001] *)
Definition estimatedGas : number := dec 1 3.

Definition set_errors (e : gmap string string) (st : State) : State :=
  mkState (listingType st) (price st) (duration st) (reservePrice st) (buyNowPrice st)
          e (isSubmitting st).
Definition set_isSubmitting (b : bool) (st : State) : State :=
  mkState (listingType st) (price st) (duration st) (reservePrice st) (buyNowPrice st)
          (errors st) b.

Section Form.
Context `{Builtins}.

(** The effect on [isOpen]: [nft.floorPrice?.toString() || ''] becomes the
    price and the other fields take their defaults. *)
Definition onOpen (p : Props) (st : State) : State :=
  mkState Fixed
          (match floorPrice (nft p) with
           | Some x => if nonempty (numberToString x) then numberToString x else ""
           | None => ""
           end)
          (of_Z 7) "" "" ∅ (isSubmitting st).

Definition price_message : string :=
  "Minimum price is " +:+ numberToString MIN_LISTING_PRICE +:+ " STX".

(** The error map that [validate] builds, key after key. *)
Definition newErrors (p : Props) (st : State) : gmap string string :=
  let e0 : gmap string string :=
    if negb (nonempty (price st)) || lt (parseFloat (price st)) MIN_LISTING_PRICE
    then {[ "price" := price_message ]}
    else ∅ in
  let e1 : gmap string string :=
    match listingType st with
    | Auction =>
        let e :=
          if nonempty (reservePrice st)
             && ge (parseFloat (reservePrice st)) (parseFloat (price st))
          then <[ "reservePrice" := "Reserve price must be less than starting price" ]> e0
          else e0 in
        if nonempty (buyNowPrice st)
           && le (parseFloat (buyNowPrice st)) (parseFloat (price st))
        then <[ "buyNowPrice" := "Buy now price must be greater than starting price" ]> e
        else e
    | Fixed => e0
    end in
  if lt (userBalance p) estimatedGas
  then <[ "balance" := "Insufficient balance for gas fees" ]> e1
  else e1.

Definition validate (p : Props) (st : State) : bool * State :=
  let e := newErrors p st in
  (bool_decide (size e = 0), set_errors e st).

(** The argument that [handleSubmit] passes to [onList]. *)
Definition listingData (p : Props) (st : State) : ListingData :=
  mkListingData (id (nft p)) (parseFloat (price st)) (listingType st) (duration st)
    (if nonempty (reservePrice st) then Some (parseFloat (reservePrice st)) else None)
    (if nonempty (buyNowPrice st) then Some (parseFloat (buyNowPrice st)) else None).

(** [handleSubmit]. [ok] is the outcome of the promise returned by [onList]. *)
Definition handleSubmit (p : Props) (ok : bool) (st : State) : State * list Call :=
  let '(valid, st1) := validate p st in
  if negb valid then (st1, [])
  else
    let call := OnList (listingData p st) in
    if ok
    then (set_isSubmitting false st1, [call; OnClose])
    else (set_isSubmitting false
            (set_errors {[ "submit" := "Failed to list NFT. Please try again." ]} st1),
          [call]).

End Form.
End ListNFTModal.

(** ** MakeOfferModal *)

Module MakeOfferModal.
Import JS.

Definition MIN_OFFER_PERCENT : number := of_Z 10.
Definition DEFAULT_EXPIRATION : number := of_Z 7.

Record NFTData : Type := mkNFTData {
  id : string;
  name : string;
  image : option string;
  collection : string;
  currentPrice : option number;
  floorPrice : option number;
  lastSalePrice : option number;
  owner : string;
}.

Record Props : Type := mkProps {
  isOpen : bool;
  nft : NFTData;
  isLoading : bool;
  userBalance : number;
  wstxBalance : number;
}.

Record State : Type := mkState {
  amount : string;
  expiration : number;
  message : string;
  errors : gmap string string;
  isSubmitting : bool;
}.

Record OfferData : Type := mkOfferData {
  od_nftId : string;
  od_amount : number;
  od_expirationDays : number;
  od_message : option string;
}.

Inductive Call : Type :=
| OnOffer (d : OfferData)
| OnClose.

(** [nft.currentPrice || nft.floorPrice || 0] *)
Definition referencePrice (p : Props) : number :=
  if opt_truthy (currentPrice (nft p)) then default NaN (currentPrice (nft p))
  else if opt_truthy (floorPrice (nft p)) then default NaN (floorPrice (nft p))
  else of_Z 0.

Definition set_errors (e : gmap string string) (st : State) : State :=
  mkState (amount st) (expiration st) (message st) e (isSubmitting st).
Definition set_isSubmitting (b : bool) (st : State) : State :=
  mkState (amount st) (expiration st) (message st) (errors st) b.

Section WithBuiltins.
Context `{Builtins}.

Definition offerAmount (st : State) : number :=
  or_else (parseFloat (amount st)) (of_Z 0).

Definition hasEnoughBalance (p : Props) (st : State) : bool :=
  le (offerAmount st) (userBalance p) || le (offerAmount st) (wstxBalance p).

Definition totalBalance (p : Props) : number := add (userBalance p) (wstxBalance p).

Definition insufficient_message (p : Props) : string :=
  "Insufficient balance. You have " +:+ toFixed (totalBalance p) 4 +:+ " STX".

(** The error map that [validate] builds. *)
Definition newErrors (p : Props) (st : State) : gmap string string :=
  if negb (nonempty (amount st)) || le (offerAmount st) (of_Z 0)
  then {[ "amount" := "Please enter an offer amount" ]}
  else if negb (hasEnoughBalance p st)
  then {[ "amount" := insufficient_message p ]}
  else if gt (referencePrice p) (of_Z 0)
          && lt (offerAmount st) (mul (referencePrice p) (div MIN_OFFER_PERCENT (of_Z 100)))
  then {[ "amount" :=
            "Minimum offer is " +:+ numberToString MIN_OFFER_PERCENT +:+ "% of floor price" ]}
  else ∅.

(** [validate]: stores the error map and tells whether it is empty. *)
Definition validate (p : Props) (st : State) : bool * State :=
  let e := newErrors p st in
  (bool_decide (size e = 0), set_errors e st).

(** [handleSubmit]. [ok] is the outcome of the promise returned by [onOffer]. *)
Definition handleSubmit (p : Props) (ok : bool) (st : State) : State * list Call :=
  let '(valid, st1) := validate p st in
  if negb valid then (st1, [])
  else
    let call := OnOffer (mkOfferData (id (nft p)) (offerAmount st) (expiration st)
                                     (or_undefined (trim (message st)))) in
    if ok
    then (set_isSubmitting false st1, [call; OnClose])
    else (set_isSubmitting false
            (set_errors {[ "submit" := "Failed to submit offer. Please try again." ]} st1),
          [call]).

(** The effect on [isOpen]: the form is reset when the modal opens. *)
Definition onOpen (st : State) : State :=
  mkState "" DEFAULT_EXPIRATION "" ∅ (isSubmitting st).

(** [(referencePrice * percent) / 100] *)
Definition quickAmount (p : Props) (percent : number) : number :=
  div (mul (referencePrice p) percent) (of_Z 100).

(** [setQuickOffer] *)
Definition setQuickOffer (p : Props) (percent : number) (st : State) : State :=
  if gt (referencePrice p) (of_Z 0)
  then mkState (toFixed (quickAmount p percent) 4) (expiration st) (message st)
               (errors st) (isSubmitting st)
  else st.

(** The [disabled] attribute of a quick-offer button. *)
Definition quick_disabled (p : Props) (percent : number) : bool :=
  gt (quickAmount p percent) (totalBalance p).

(** The [disabled] attribute of the "Make Offer" button. *)
Definition submit_disabled (p : Props) (st : State) : bool :=
  (isLoading p || isSubmitting st)
  || negb (nonempty (amount st))
  || le (offerAmount st) (of_Z 0).

End WithBuiltins.
End MakeOfferModal.

(** ** TransferNFTModal *)

Module TransferNFTModal.
Import JS Regex.

(** [const TRANSFER_GAS_ESTIMATE = 0.0005] *)
Definition TRANSFER_GAS_ESTIMATE : number := dec 5 4.

Definition STACKS_ADDRESS_LENGTH : nat := 41.

(** [[A-Z0-9]] *)
Definition upper_alnum (c : ascii) : bool := is_upper c || is_digit c.
(** [[a-z0-9-]] *)
Definition name_char (c : ascii) : bool :=
  is_lower c || is_digit c || bool_decide (c = "-"%char).

(** [/^SP[A-Z0-9]{39}$/] *)
Definition STACKS_ADDRESS_REGEX : regex :=
  Cat (Cls (chr "S")) (Cat (Cls (chr "P")) (Rep 39 (Cls upper_alnum))).

(** [/^[a-z0-9-]+\.btc$/i] *)
Definition BNS_DOMAIN_REGEX : regex :=
  Cat (Plus (Cls (fold_case name_char)))
      (Cat (Cls (fold_case (chr ".")))
           (Cat (Cls (fold_case (chr "b")))
                (Cat (Cls (fold_case (chr "t"))) (Cls (fold_case (chr "c")))))).

Record NFTData : Type := mkNFTData {
  id : string;
  name : string;
  image : option string;
  collection : string;
  tokenId : number;
}.

Record TransferData : Type := mkTransferData {
  td_nftId : string;
  td_tokenId : number;
  td_recipient : string;
  td_memo : option string;
}.

Record Props : Type := mkProps {
  isOpen : bool;
  nft : NFTData;
  isLoading : bool;
  userBalance : number;
}.

Record State : Type := mkState {
  recipient : string;
  memo : string;
  isValidating : bool;
  addressValid : option bool;
  resolvedAddress : option string;
  errors : gmap string string;
  isSubmitting : bool;
  showConfirmation : bool;
}.

Inductive Call : Type :=
| OnTransfer (d : TransferData)
| OnClose.

Inductive View : Type := InputView | ConfirmationView.

(** The body renders the confirmation view exactly when [showConfirmation]. *)
Definition view (st : State) : View :=
  if showConfirmation st then ConfirmationView else InputView.

Definition set_recipient (v : string) (st : State) : State :=
  mkState v (memo st) (isValidating st) (addressValid st) (resolvedAddress st)
          (errors st) (isSubmitting st) (showConfirmation st).
Definition set_memo (v : string) (st : State) : State :=
  mkState (recipient st) v (isValidating st) (addressValid st) (resolvedAddress st)
          (errors st) (isSubmitting st) (showConfirmation st).
Definition set_isValidating (v : bool) (st : State) : State :=
  mkState (recipient st) (memo st) v (addressValid st) (resolvedAddress st)
          (errors st) (isSubmitting st) (showConfirmation st).
Definition set_addressValid (v : option bool) (st : State) : State :=
  mkState (recipient st) (memo st) (isValidating st) v (resolvedAddress st)
          (errors st) (isSubmitting st) (showConfirmation st).
Definition set_resolvedAddress (v : option string) (st : State) : State :=
  mkState (recipient st) (memo st) (isValidating st) (addressValid st) v
          (errors st) (isSubmitting st) (showConfirmation st).
Definition set_errors (v : gmap string string) (st : State) : State :=
  mkState (recipient st) (memo st) (isValidating st) (addressValid st) (resolvedAddress st)
          v (isSubmitting st) (showConfirmation st).
Definition set_isSubmitting (v : bool) (st : State) : State :=
  mkState (recipient st) (memo st) (isValidating st) (addressValid st) (resolvedAddress st)
          (errors st) v (showConfirmation st).
Definition set_showConfirmation (v : bool) (st : State) : State :=
  mkState (recipient st) (memo st) (isValidating st) (addressValid st) (resolvedAddress st)
          (errors st) (isSubmitting st) v.

(** [useState] initial values *)
Definition initial : State := mkState "" "" false None None ∅ false false.

(** The effect on [isOpen]: the form is reset when the modal opens. *)
Definition onOpen (st : State) : State :=
  set_showConfirmation false
    (set_errors ∅
      (set_resolvedAddress None
        (set_addressValid None
          (set_memo "" (set_recipient "" st))))).

(** The address that the mock resolution returns: ['SP' + 'X'.repeat(39)]. *)
Definition mockResolvedAddress : string :=
  "SP" +:+ "XXXXXXXXXXXXXXXXXXXXXXXXXXXXXXXXXXXXXXX".

(** [validateAddress address], run to completion (the BNS branch awaits a
    timer, which cannot fail). *)
Definition validateAddress (address : string) (st : State) : State :=
  if negb (nonempty address)
  then set_resolvedAddress None (set_addressValid None st)
  else
    let st := set_isValidating true st in
    let st :=
      if test BNS_DOMAIN_REGEX address
      then set_addressValid (Some true) (set_resolvedAddress (Some mockResolvedAddress) st)
      else if test STACKS_ADDRESS_REGEX address
      then set_resolvedAddress None (set_addressValid (Some true) st)
      else if startsWith address "SP" && bool_decide (String.length address = STACKS_ADDRESS_LENGTH)
      then set_resolvedAddress None (set_addressValid (Some true) st)
      else set_resolvedAddress None (set_addressValid (Some false) st) in
    set_isValidating false st.

(** The debounced effect on [recipient]: 300 ms after the last change of the
    field, [validateAddress] runs on its current value. This is the state
    once that call has completed, with nothing else happening meanwhile. *)
Definition debounce_fires (st : State) : State := validateAddress (recipient st) st.

(** [validateAddress address] up to its first suspension. The branch of a
    domain name stops at the [await] of the resolution timer, with
    [isValidating] set and the verdict not yet written: the result says so
    with [true]. The other branches run to the end of the function at once. *)
Definition validateAddress_start (address : string) (st : State) : State * bool :=
  if negb (nonempty address)
  then (set_resolvedAddress None (set_addressValid None st), false)
  else
    let st := set_isValidating true st in
    if test BNS_DOMAIN_REGEX address
    then (st, true)
    else if test STACKS_ADDRESS_REGEX address
    then (set_isValidating false (set_resolvedAddress None (set_addressValid (Some true) st)),
          false)
    else if startsWith address "SP" && bool_decide (String.length address = STACKS_ADDRESS_LENGTH)
    then (set_isValidating false (set_resolvedAddress None (set_addressValid (Some true) st)),
          false)
    else (set_isValidating false (set_resolvedAddress None (set_addressValid (Some false) st)),
          false).

(** The rest of the domain branch, once its timer has fired: the resolved
    address and the verdict are written into the state as it is then,
    whatever the recipient field holds by now, and [isValidating] ends. *)
Definition resolution_lands (st : State) : State :=
  set_isValidating false
    (set_addressValid (Some true) (set_resolvedAddress (Some mockResolvedAddress) st)).

Definition hasEnoughGas (p : Props) : bool := ge (userBalance p) TRANSFER_GAS_ESTIMATE.

Section WithBuiltins.
Context `{Builtins}.

Definition gas_message : string :=
  "Insufficient balance for gas. Need " +:+ numberToString TRANSFER_GAS_ESTIMATE +:+ " STX".

(** The error map that [validate] builds; [!addressValid] holds for [null]
    and for [false]. *)
Definition newErrors (p : Props) (st : State) : gmap string string :=
  let e : gmap string string :=
    if negb (nonempty (recipient st))
    then {[ "recipient" := "Please enter a recipient address" ]}
    else if negb (default false (addressValid st))
    then {[ "recipient" := "Invalid Stacks address or BNS name" ]}
    else ∅ in
  if negb (hasEnoughGas p) then <[ "gas" := gas_message ]> e else e.

Definition validate (p : Props) (st : State) : bool * State :=
  let e := newErrors p st in
  (bool_decide (size e = 0), set_errors e st).

(** [handleContinue] *)
Definition handleContinue (p : Props) (st : State) : State :=
  let '(valid, st1) := validate p st in
  if valid then set_showConfirmation true st1 else st1.

(** The argument that [handleSubmit] passes to [onTransfer]. *)
Definition transferData (p : Props) (st : State) : TransferData :=
  mkTransferData (id (nft p)) (tokenId (nft p))
                 (str_or (resolvedAddress st) (recipient st))
                 (or_undefined (trim (memo st))).

(** [handleSubmit] up to the [await]: validation, the busy flag and the call
    of [onTransfer]. *)
Definition handleSubmit_start (p : Props) (st : State) : State * list Call :=
  let '(valid, st1) := validate p st in
  if negb valid then (st1, [])
  else (set_isSubmitting true st1, [OnTransfer (transferData p st)]).

(** [handleSubmit] after the [await]; [ok] tells whether the promise was
    fulfilled. *)
Definition handleSubmit_settle (ok : bool) (st : State) : State * list Call :=
  if ok
  then (set_isSubmitting false st, [OnClose])
  else (set_isSubmitting false
          (set_showConfirmation false
            (set_errors {[ "submit" := "Failed to transfer NFT. Please try again." ]} st)),
        []).

Definition handleSubmit (p : Props) (ok : bool) (st : State) : State * list Call :=
  let '(valid, st1) := validate p st in
  if negb valid then (st1, [])
  else
    let '(st2, calls) := handleSubmit_settle ok (set_isSubmitting true st1) in
    (st2, OnTransfer (transferData p st) :: calls).

(** The [disabled] attribute of the Continue / Confirm button. *)
Definition primary_disabled (p : Props) (st : State) : bool :=
  (isLoading p || isSubmitting st)
  || negb (default false (addressValid st))
  || negb (hasEnoughGas p).

End WithBuiltins.

(** Events of an open modal: what the user does and what timers do.

    The recipient and memo inputs are rendered in the input view only.
    [DebounceFires] is the timer of the effect on [recipient]: it fires
    300 ms after the last change of the field and starts [validateAddress]
    on the field's value. [ResolutionLands] is the timer on which the domain
    branch of a [validateAddress] call waits. [ClickPrimary] is the one
    button of the footer that continues or confirms; [ok] is the outcome of
    the promise of [onTransfer] when the click submits. [Back] is the arrow
    of the header, the footer's Back and the Escape key in the confirmation
    view. *)
Inductive Event : Type :=
| Open
| TypeRecipient (v : string)
| TypeMemo (v : string)
| DebounceFires
| ResolutionLands
| ClickPrimary (ok : bool)
| Back.

(** A mounted modal: the component state, the number of [validateAddress]
    calls suspended at the resolution timer, and the calls made to the
    parent so far. *)
Record Session : Type := mkSession {
  form : State;
  pending : nat;
  calls : list Call;
}.

Section Run.
Context `{Builtins}.

(** [onClick={showConfirmation ? handleSubmit : handleContinue}] with
    [disabled={loading || !addressValid || !hasEnoughGas}]. The submission
    is taken as one step, from the click to the settling of the promise. *)
Definition step (p : Props) (e : Event) (s : Session) : Session :=
  let st := form s in
  match e with
  | Open => mkSession (onOpen st) (pending s) (calls s)
  | TypeRecipient v =>
      if showConfirmation st then s
      else mkSession (set_recipient v st) (pending s) (calls s)
  | TypeMemo v =>
      if showConfirmation st then s
      else mkSession (set_memo v st) (pending s) (calls s)
  | DebounceFires =>
      let '(st', waits) := validateAddress_start (recipient st) st in
      mkSession st' (if waits then S (pending s) else pending s) (calls s)
  | ResolutionLands =>
      match pending s with
      | O => s
      | S n => mkSession (resolution_lands st) n (calls s)
      end
  | ClickPrimary ok =>
      if primary_disabled p st then s
      else if showConfirmation st
      then let '(st', cs) := handleSubmit p ok st in
           mkSession st' (pending s) (calls s ++ cs)
      else mkSession (handleContinue p st) (pending s) (calls s)
  | Back => mkSession (set_showConfirmation false st) (pending s) (calls s)
  end.

Definition run_from (p : Props) (es : list Event) (s : Session) : Session :=
  fold_left (λ acc e, step p e acc) es s.

(** A run from a form state with no resolution under way. *)
Definition run (p : Props) (es : list Event) (st : State) : Session :=
  run_from p es (mkSession st 0 []).

End Run.
End TransferNFTModal.

(** ** useCollection *)

Module UseCollection.
Open Scope Z_scope.

(** [const PAGE_SIZE = 24] *)
Definition PAGE_SIZE : Z := 24.

(** [mockCollection.totalSupply] *)
Definition mock_totalSupply : Z := 10000.

(** An item of the listing. Of a generated record the model keeps the
    fields that do not come from [Math.random]: the index [n] behind the id
    [nft-n] and the token id. *)
Record CollectionNFT : Type := mkNFT {
  nft_index : Z;
  tokenId : Z;
}.

Record State : Type := mkState {
  collection_loaded : bool;
  nfts : list CollectionNFT;
  isLoading : bool;
  error : option string;
  page : Z;
  totalCount : Z;
  hasMore : bool;
}.

(** The [useState] initial values. *)
Definition initial : State := mkState false [] true None 1 0 true.

(** [generateMockNFTs count offset] *)
Definition generateMockNFTs (count offset : Z) : list CollectionNFT :=
  map (λ i, mkNFT (offset + i) (offset + i + 1)) (seqZ 0 count).

(** [fetchCollection] once its timer has fired. *)
Definition fetchCollection (st : State) : State :=
  mkState true (nfts st) (isLoading st) (error st) (page st) mock_totalSupply (hasMore st).

(** [fetchNFTs pageNum append] once its timer has fired. [total] is the
    [totalCount] that the callback captured when it was created. *)
Definition fetchNFTs (total pageNum : Z) (append : bool) (st : State) : State :=
  let offset := (pageNum - 1) * PAGE_SIZE in
  let remainingItems := Z.max 0 (total - offset) in
  let itemsToFetch := Z.min PAGE_SIZE remainingItems in
  let newNfts := generateMockNFTs itemsToFetch offset in
  mkState (collection_loaded st)
          (if append then nfts st ++ newNfts else newNfts)
          false
          (error st)
          (page st)
          (totalCount st)
          (offset + itemsToFetch <? total).

Definition setPage (n : Z) (st : State) : State :=
  mkState (collection_loaded st) (nfts st) (isLoading st) (error st) n
          (totalCount st) (hasMore st).

(** [fetchMore] *)
Definition fetchMore (st : State) : State :=
  if negb (hasMore st) || isLoading st then st else setPage (page st + 1) st.

(** The synchronous part of [refresh]: [setPage(1); setNfts([])]. *)
Definition refresh_reset (st : State) : State :=
  mkState (collection_loaded st) [] (isLoading st) (error st) 1
          (totalCount st) (hasMore st).

(** State changes of a mounted hook. The effect on [page] and [totalCount]
    issues [fetchNFTs(page, page > 1)] when [totalCount > 0]; [refresh] ends
    with [fetchNFTs(1, false)]. *)
Inductive step : State → State → Prop :=
| step_collection st : step st (fetchCollection st)
| step_page_effect st :
    0 < totalCount st →
    step st (fetchNFTs (totalCount st) (page st) (1 <? page st) st)
| step_fetchMore st : step st (fetchMore st)
| step_setPage n st : step st (setPage n st)
| step_refresh_reset st : step st (refresh_reset st)
| step_refresh_fetch total st : step st (fetchNFTs total 1 false st).

Inductive reachable : State → Prop :=
| reach_initial : reachable initial
| reach_step st st' : reachable st → step st st' → reachable st'.

(** The relation that the specification states between the fields of the
    cursor. *)
Definition cursor_consistent (st : State) : bool :=
  bool_decide (hasMore st = (page st * PAGE_SIZE <? totalCount st)).

End UseCollection.

(** ** A runtime fragment for running the handlers on concrete inputs

    [parseFloat] on a string that starts with decimal digits and has no
    fraction or exponent, and the two printing functions on integers. It
    serves to evaluate the model; no general statement depends on it. *)

Module SampleRuntime.
Import JS.

Fixpoint leading_digits (s : string) (acc : option Z) : option Z :=
  match s with
  | String c s' =>
      if is_digit c
      then leading_digits s' (Some (10 * default 0 acc + (Z.of_N (code c) - 48)))%Z
      else acc
  | EmptyString => acc
  end.

Definition parse_digits (s : string) : number :=
  match leading_digits s None with
  | Some n => of_Z n
  | None => NaN
  end.

(** The integer that a number denotes, when it denotes one. *)
Definition to_integer (x : number) : option Z :=
  match x with
  | S754_zero _ => Some 0%Z
  | S754_finite s m e =>
      let v := (if s then Z.neg m else Z.pos m) in
      if (0 <=? e)%Z then Some (v * 2 ^ e)%Z
      else if (v mod 2 ^ (- e) =? 0)%Z then Some (v / 2 ^ (- e))%Z
      else None
  | _ => None
  end.

Definition print_integer (x : number) : string :=
  match to_integer x with
  | Some z => pretty z
  | None => "NaN"
  end.

Definition print_fixed (x : number) (digits : nat) : string :=
  print_integer x +:+ "." +:+ String.concat "" (replicate digits "0").

#[export] Instance sample_builtins : Builtins :=
  {| parseFloat := parse_digits;
     numberToString := print_integer;
     toFixed := print_fixed |}.

End SampleRuntime.

(** ** Sample inputs *)

Module Samples.
Import JS.


(** ["SP"] and 39 lower-case letters. *)
Definition lowercase_address : string :=
  "SP" +:+ "abcdefghijklmnopqrstuvwxyzabcdefghijklm".

Definition domain_name : string := "Alice-1.BTC".

Definition transfer_nft : TransferNFTModal.NFTData :=
  TransferNFTModal.mkNFTData "nft-7" "Stacker #7" None "stackers" (of_Z 7).

(** An open transfer modal of a user who holds 1 STX. *)
Definition transfer_props : TransferNFTModal.Props :=
  TransferNFTModal.mkProps true transfer_nft false (of_Z 1).

(** The confirmation view of a transfer to [domain_name]. *)
Definition transfer_confirming : TransferNFTModal.State :=
  TransferNFTModal.mkState domain_name "  gift " false (Some true)
    (Some TransferNFTModal.mockResolvedAddress) ∅ false true.

(** A filter with two values selected for one trait. *)
Definition two_hats : gmap string (list string) :=
  {[ "Hat" := ["Cap"; "Crown"] ]}.

(** The price inputs with the bounds typed the wrong way round. *)
Definition filter_props : CollectionFilter.Props :=
  CollectionFilter.mkProps
    (CollectionFilter.mkFilterState CollectionFilter.DEFAULT_PRICE_RANGE [] [] ∅
       CollectionFilter.STX "recent")
    CollectionFilter.default_maxPrice.
Definition swapped_bounds : CollectionFilter.Local := CollectionFilter.mkLocal "500" "20".

Definition offer_nft : MakeOfferModal.NFTData :=
  MakeOfferModal.mkNFTData "nft-7" "Stacker #7" None "stackers"
                           (Some (of_Z 20)) None None "SP-owner".

(** A bidder with 10 STX and 10 WSTX who offers 15. *)
Definition offer_props : MakeOfferModal.Props :=
  MakeOfferModal.mkProps true offer_nft false (of_Z 10) (of_Z 10).
Definition offer_of_15 : MakeOfferModal.State :=
  MakeOfferModal.mkState "15" MakeOfferModal.DEFAULT_EXPIRATION "" ∅ false.

(** A burn modal of a user who holds 1 STX and has typed the confirmation
    in lower case. *)
Definition burn_props : BurnNFTModal.Props :=
  BurnNFTModal.mkProps true (BurnNFTModal.mkNFTData "nft-7" "Stacker #7" None "stackers"
                                                    (of_Z 7)) false (of_Z 1).
Definition burn_typed : BurnNFTModal.State := BurnNFTModal.mkState "burn" false None.

(** A listing form whose price text is not a number. *)
Definition list_props : ListNFTModal.Props :=
  ListNFTModal.mkProps true
    (ListNFTModal.mkNFTData "nft-7" "Stacker #7" None "stackers" None None)
    false (of_Z 1).
Definition list_unparsable : ListNFTModal.State :=
  ListNFTModal.mkState ListNFTModal.Auction "abc" (of_Z 7) "5" "" ∅ false.

(** The same bidder offering 5, with a message. *)
Definition offer_of_5 : MakeOfferModal.State :=
  MakeOfferModal.mkState "5" MakeOfferModal.DEFAULT_EXPIRATION " hello " ∅ false.

End Samples.

(* ===================================================================== *)
(** * Part II: properties *)
(* ===================================================================== *)

(** ** Order facts about numbers *)

Section NumberFacts.
Import JS.

Lemma SFcompare_none (a b : number) :
  SFcompare a b = None ↔ is_nan a = true ∨ is_nan b = true.
Proof.
  destruct a as [sa|sa| |sa ma ea], b as [sb|sb| |sb mb eb]; simpl;
    try destruct sa; try destruct sb; simpl; split; intros Hc;
    try discriminate; try tauto; destruct Hc; discriminate.
Qed.

Lemma SFcompare_antisym (a b : number) (c : comparison) :
  SFcompare a b = Some c → SFcompare b a = Some (CompOpp c).
Proof.
  destruct a as [sa|sa| |sa ma ea], b as [sb|sb| |sb mb eb]; simpl;
    try destruct sa; try destruct sb; simpl; intros Hc;
    try discriminate; try (injection Hc as <-; reflexivity).
  - injection Hc as <-. rewrite (Z.compare_antisym ea eb).
    destruct (ea ?= eb)%Z; simpl; try reflexivity.
    rewrite CompOpp_involutive, (Pos.compare_cont_antisym mb ma Eq). reflexivity.
  - injection Hc as <-. rewrite (Z.compare_antisym ea eb).
    destruct (ea ?= eb)%Z; simpl; try reflexivity.
    rewrite (Pos.compare_cont_antisym ma mb Eq). reflexivity.
Qed.

Lemma SFcompare_refl (a : number) : is_nan a = false → SFcompare a a = Some Eq.
Proof.
  destruct a as [sa|sa| |sa ma ea]; simpl; try destruct sa; simpl;
    intros Hn; try discriminate; try reflexivity;
    rewrite Z.compare_refl, Pos.compare_cont_refl; reflexivity.
Qed.

Lemma or_else_not_nan (x y : number) : is_nan y = false → is_nan (or_else x y) = false.
Proof. unfold or_else. destruct x; simpl; auto. Qed.

Lemma Math_min_le_max (a b : number) :
  is_nan a = false → is_nan b = false → le (Math_min a b) (Math_max a b) = true.
Proof.
  intros Ha Hb. unfold le, SFleb, Math_min, Math_max.
  destruct (SFcompare a b) as [c|] eqn:Hc.
  - destruct c.
    + assert (Hba : SFcompare b a = Some Eq) by (apply (SFcompare_antisym a b Eq Hc)).
      pose proof (SFcompare_refl b Hb) as Hbb.
      destruct a as [[]|sa| |sa ma ea]; rewrite ?Hc, ?Hba, ?Hbb; reflexivity.
    + rewrite Hc. reflexivity.
    + rewrite (SFcompare_antisym a b Gt Hc). reflexivity.
  - apply SFcompare_none in Hc. destruct Hc; congruence.
Qed.

(** Without the side condition the order is lost: [NaN] is not below itself. *)
Lemma Math_min_max_nan (a : number) : le (Math_min a NaN) (Math_max a NaN) = false.
Proof. destruct a as [[]|[]| |[] m e]; reflexivity. Qed.

End NumberFacts.

(** ** CollectionFilter: price range and reset *)

Section CollectionFilterFacts.
Import JS CollectionFilter.

(** C8. Committing the two price buffers (blur of either input, or Apply)
    hands [onFiltersChange] one state, whose price range is ordered:
    [priceRange[0] <= priceRange[1]], whatever the two typed strings are and
    whichever bound was typed larger. The [maxPrice] prop, which stands in
    for an empty or zero upper bound, is taken to be a number (not [NaN]). *)
Theorem C8_applyPriceRange_ordered `{Builtins} (p : Props) (l : Local) :
  is_nan (maxPrice p) = false →
  ∃ lo hi : number,
    emitted (applyPriceRange p l) = [set_priceRange (lo, hi) (filters p)]
    ∧ local (applyPriceRange p l) = l
    ∧ le lo hi = true.
Proof.
  intros Hmax.
  exists (Math_min (or_else (parseFloat (localPriceMin l)) (of_Z 0))
                   (or_else (parseFloat (localPriceMax l)) (maxPrice p))),
         (Math_max (or_else (parseFloat (localPriceMin l)) (of_Z 0))
                   (or_else (parseFloat (localPriceMax l)) (maxPrice p))).
  split; [reflexivity|]. split; [reflexivity|].
  apply Math_min_le_max; apply or_else_not_nan; [reflexivity | exact Hmax].
Qed.

Lemma C8_applyPriceRange_ordered_witness :
  let _ := SampleRuntime.sample_builtins in
  is_nan (maxPrice Samples.filter_props) = false
  ∧ map priceRange (emitted (applyPriceRange Samples.filter_props Samples.swapped_bounds))
    = [(of_Z 20, of_Z 500)]
  ∧ ∃ lo hi : number,
      emitted (applyPriceRange Samples.filter_props Samples.swapped_bounds)
        = [set_priceRange (lo, hi) (filters Samples.filter_props)]
      ∧ local (applyPriceRange Samples.filter_props Samples.swapped_bounds)
        = Samples.swapped_bounds
      ∧ le lo hi = true.
Proof.
  split; [reflexivity|]. split; [vm_compute; reflexivity|].
  exact (@C8_applyPriceRange_ordered SampleRuntime.sample_builtins
           Samples.filter_props Samples.swapped_bounds eq_refl).
Defined.

(** C2. Whatever the filter state and the buffers were, and whatever
    [maxPrice] is, [clearAllFilters] hands [onFiltersChange] exactly the
    state [{priceRange: [0, 1000], rarities: [], statuses: [], traits: {},
    currency: 'STX', sortBy: 'recent'}], 1000 being the default of
    [maxPrice], and sets the two price buffers to ["0"] and to the text of
    [maxPrice]. *)
Theorem C2_clearAllFilters_defaults `{Builtins} (p : Props) (l : Local) :
  emitted (clearAllFilters p l)
    = [mkFilterState (of_Z 0, default_maxPrice) [] [] ∅ STX "recent"]
  ∧ localPriceMin (local (clearAllFilters p l)) = "0"
  ∧ localPriceMax (local (clearAllFilters p l)) = numberToString (maxPrice p).
Proof. repeat split. Qed.

End CollectionFilterFacts.

(** ** ListNFTModal: fee breakdown *)

Section ListNFTModalFacts.
Import JS ListNFTModal.



End ListNFTModalFacts.

(** ** Regular expressions: the derivative test decides the language *)

Section RegexFacts.
Import JS Regex.

Lemma sapp_nil_l (s : string) : "" +:+ s = s.
Proof. reflexivity. Qed.

Lemma sapp_cons (c : ascii) (s1 s2 : string) : String c s1 +:+ s2 = String c (s1 +:+ s2).
Proof. reflexivity. Qed.

Lemma sapp_nil_r (s : string) : s +:+ "" = s.
Proof. induction s as [|c s IH]; [reflexivity|]. rewrite sapp_cons, IH. reflexivity. Qed.

Lemma sapp_length (s1 s2 : string) :
  String.length (s1 +:+ s2) = String.length s1 + String.length s2.
Proof.
  induction s1 as [|c s1 IH]; [reflexivity|].
  rewrite sapp_cons. simpl. rewrite IH. reflexivity.
Qed.

Lemma sapp_eq_nil (s1 s2 : string) : s1 +:+ s2 = "" → s1 = "" ∧ s2 = "".
Proof. destruct s1; [rewrite sapp_nil_l; auto | rewrite sapp_cons; discriminate]. Qed.

Lemma sapp_eq_cons (s1 s2 : string) (c : ascii) (s : string) :
  s1 +:+ s2 = String c s →
  (s1 = "" ∧ s2 = String c s) ∨ (∃ s1', s1 = String c s1' ∧ s = s1' +:+ s2).
Proof.
  destruct s1 as [|c1 s1].
  - rewrite sapp_nil_l. auto.
  - rewrite sapp_cons. intros [= -> <-]. right. eauto.
Qed.

Lemma all_chars_app (p : ascii → bool) (s1 s2 : string) :
  all_chars p (s1 +:+ s2) = all_chars p s1 && all_chars p s2.
Proof.
  induction s1 as [|c s1 IH]; [reflexivity|].
  rewrite sapp_cons. simpl. rewrite IH, andb_assoc. reflexivity.
Qed.

Lemma nullable_matches (r : regex) : nullable r = true ↔ matches r "".
Proof.
  split.
  - induction r as [| |q|r1 IH1 r2 IH2|r1 IH1 r2 IH2|r1 IH1]; simpl; intros Hn;
      try discriminate.
    + constructor.
    + apply andb_true_iff in Hn as [H1 H2].
      change (matches (Cat r1 r2) ("" +:+ "")). constructor; auto.
    + apply orb_true_iff in Hn as [H1|H2]; [apply m_alt_l | apply m_alt_r]; auto.
    + constructor.
  - intros Hm. remember ""%string as s eqn:Hs.
    induction Hm as [|q c Hq|r1 r2 s1 s2 _ IH1 _ IH2|r1 r2 s _ IH|r1 r2 s _ IH
                     |r|r s1 s2 _ _ _ _]; simpl; try reflexivity; try discriminate.
    + apply sapp_eq_nil in Hs as [-> ->]. rewrite IH1, IH2; reflexivity.
    + rewrite IH; auto.
    + rewrite IH; auto using orb_true_r.
Qed.

Lemma deriv_sound (c : ascii) (r : regex) (s : string) :
  matches (deriv c r) s → matches r (String c s).
Proof.
  revert s.
  induction r as [| |q|r1 IH1 r2 IH2|r1 IH1 r2 IH2|r1 IH1]; simpl; intros s Hm.
  - inversion Hm.
  - inversion Hm.
  - destruct (q c) eqn:Hq; inversion Hm; subst. constructor; exact Hq.
  - assert (Hcat : ∀ s, matches (Cat (deriv c r1) r2) s → matches (Cat r1 r2) (String c s)).
    { intros s' Hc. inversion Hc as [| |? ? s1 s2 H1 H2| | | |]; subst.
      rewrite <- sapp_cons. constructor; auto. }
    destruct (nullable r1) eqn:Hn.
    + inversion Hm as [| | |? ? ? H1|? ? ? H2| |]; subst; [auto|].
      rewrite <- (sapp_nil_l (String c s)). constructor; [|auto].
      apply nullable_matches; exact Hn.
    + auto.
  - inversion Hm; subst; [apply m_alt_l | apply m_alt_r]; auto.
  - inversion Hm as [| |? ? s1 s2 H1 H2| | | |]; subst.
    rewrite <- sapp_cons. constructor; auto.
Qed.

Lemma deriv_complete (c : ascii) (r : regex) (s : string) :
  matches r (String c s) → matches (deriv c r) s.
Proof.
  intros Hm. remember (String c s) as s0 eqn:Hs. revert s Hs.
  induction Hm as [|q c' Hq|r1 r2 s1 s2 H1 IH1 H2 IH2|r1 r2 s' _ IH|r1 r2 s' _ IH
                   |r|r s1 s2 H1 IH1 H2 IH2]; intros s Hs; simpl; try discriminate.
  - injection Hs as -> <-. rewrite Hq. constructor.
  - apply sapp_eq_cons in Hs as [[-> ->]|(s1' & -> & ->)].
    + apply nullable_matches in H1. rewrite H1. apply m_alt_r; auto.
    + destruct (nullable r1); [apply m_alt_l|]; constructor; auto.
  - apply m_alt_l; auto.
  - apply m_alt_r; auto.
  - apply sapp_eq_cons in Hs as [[-> ->]|(s1' & -> & ->)].
    + apply (IH2 s eq_refl).
    + constructor; auto.
Qed.

(** [test] accepts exactly the strings of the language. *)
Lemma test_matches (r : regex) (s : string) : test r s = true ↔ matches r s.
Proof.
  revert r. induction s as [|c s IH]; intros r; simpl.
  - apply nullable_matches.
  - rewrite IH. split; [apply deriv_sound | apply deriv_complete].
Qed.

Lemma matches_Cls_inv (p : ascii → bool) (s : string) :
  matches (Cls p) s → ∃ c, s = String c "" ∧ p c = true.
Proof. inversion 1; subst; eauto. Qed.

Lemma matches_Cat_inv (r1 r2 : regex) (s : string) :
  matches (Cat r1 r2) s → ∃ s1 s2, s = s1 +:+ s2 ∧ matches r1 s1 ∧ matches r2 s2.
Proof. inversion 1; subst; eauto. Qed.

Lemma matches_Cls_Cat_inv (p : ascii → bool) (r : regex) (s : string) :
  matches (Cat (Cls p) r) s → ∃ c s', s = String c s' ∧ p c = true ∧ matches r s'.
Proof.
  intros (s1 & s2 & -> & (c & -> & Hc)%matches_Cls_inv & H2)%matches_Cat_inv.
  exists c, s2. auto.
Qed.

(** A string of the language is made of code units of the alphabet. *)
Lemma matches_alphabet (p : ascii → bool) (r : regex) (s : string) :
  matches r s → alphabet_within p r → all_chars p s = true.
Proof.
  induction 1 as [|q c Hq|r1 r2 s1 s2 _ IH1 _ IH2|r1 r2 s _ IH|r1 r2 s _ IH
                  |r|r s1 s2 _ IH1 _ IH2]; simpl; intros Hp.
  - reflexivity.
  - rewrite (Hp c Hq). reflexivity.
  - rewrite all_chars_app, IH1, IH2; tauto.
  - apply IH; tauto.
  - apply IH; tauto.
  - reflexivity.
  - rewrite all_chars_app, IH1, IH2; auto.
Qed.

(** [p{n}] is the strings of length [n] over [p]. *)
Lemma matches_Rep_Cls (p : ascii → bool) (n : nat) (s : string) :
  matches (Rep n (Cls p)) s ↔ String.length s = n ∧ all_chars p s = true.
Proof.
  revert s. induction n as [|n IH]; intros s; simpl.
  - split.
    + inversion 1; auto.
    + intros [Hl _]. destruct s; [constructor | discriminate].
  - split.
    + intros (c & s' & -> & Hc & [Hl Ha]%IH)%matches_Cls_Cat_inv.
      simpl. rewrite Hl, Hc, Ha. auto.
    + intros [Hl Ha]. destruct s as [|c s]; [discriminate|].
      simpl in *. apply andb_true_iff in Ha as [Hc Ha].
      change (String c s) with (String c "" +:+ s).
      constructor; [constructor; exact Hc|]. apply IH. split; [lia | exact Ha].
Qed.

(** [p*] is the strings over [p]. *)
Lemma matches_Star_Cls (p : ascii → bool) (s : string) :
  matches (Star (Cls p)) s ↔ all_chars p s = true.
Proof.
  split.
  - intros Hm. apply (matches_alphabet p _ _ Hm). simpl. auto.
  - induction s as [|c s IH]; simpl; intros Ha; [constructor|].
    apply andb_true_iff in Ha as [Hc Ha].
    change (String c s) with (String c "" +:+ s).
    constructor; [constructor; exact Hc | auto].
Qed.

End RegexFacts.

(** ** TransferNFTModal: the two address patterns *)

Section AddressPatternFacts.
Import JS Regex TransferNFTModal.

Lemma chr_true (c x : ascii) : chr c x = true ↔ x = c.
Proof. unfold chr. apply bool_decide_eq_true. Qed.

Lemma fold_case_dot (c : ascii) : fold_case (chr ".") c = bool_decide (c = "."%char).
Proof. destruct c as [[] [] [] [] [] [] [] []]; reflexivity. Qed.

Lemma fold_case_b (c : ascii) :
  fold_case (chr "b") c = bool_decide (c = "b"%char) || bool_decide (c = "B"%char).
Proof. destruct c as [[] [] [] [] [] [] [] []]; reflexivity. Qed.

Lemma fold_case_t (c : ascii) :
  fold_case (chr "t") c = bool_decide (c = "t"%char) || bool_decide (c = "T"%char).
Proof. destruct c as [[] [] [] [] [] [] [] []]; reflexivity. Qed.

Lemma fold_case_c (c : ascii) :
  fold_case (chr "c") c = bool_decide (c = "c"%char) || bool_decide (c = "C"%char).
Proof. destruct c as [[] [] [] [] [] [] [] []]; reflexivity. Qed.

(** With the [i] flag the class [[a-z0-9-]] is the letters of both cases,
    the digits and the hyphen. *)
Lemma fold_case_name_char (c : ascii) :
  fold_case name_char c
  = is_lower c || is_upper c || is_digit c || bool_decide (c = "-"%char).
Proof. destruct c as [[] [] [] [] [] [] [] []]; reflexivity. Qed.

(** The direct-address pattern: ["SP"] and 39 upper-case letters or digits. *)
Lemma STACKS_ADDRESS_shape (a : string) :
  test STACKS_ADDRESS_REGEX a = true ↔
  ∃ t, a = "SP" +:+ t ∧ String.length t = 39 ∧ all_chars upper_alnum t = true.
Proof.
  rewrite test_matches. unfold STACKS_ADDRESS_REGEX. split.
  - intros (c1 & s1 & -> & ->%chr_true
            & (c2 & s2 & -> & ->%chr_true & Hr)%matches_Cls_Cat_inv)%matches_Cls_Cat_inv.
    apply matches_Rep_Cls in Hr. exists s2. auto.
  - intros (t & -> & Hl & Ha).
    change ("SP" +:+ t) with (String "S" "" +:+ (String "P" "" +:+ t)).
    constructor; [constructor; reflexivity|].
    constructor; [constructor; reflexivity|].
    apply matches_Rep_Cls. auto.
Qed.

(** The domain pattern: a non-empty name of letters, digits and hyphens,
    followed by [.btc] in any case. *)
Lemma BNS_DOMAIN_shape (a : string) :
  test BNS_DOMAIN_REGEX a = true ↔
  ∃ (name : string) (c2 c3 c4 : ascii),
    a = name +:+ String "." (String c2 (String c3 (String c4 "")))
    ∧ name ≠ ""%string
    ∧ all_chars (fold_case name_char) name = true
    ∧ (c2 = "b" ∨ c2 = "B")%char ∧ (c3 = "t" ∨ c3 = "T")%char ∧ (c4 = "c" ∨ c4 = "C")%char.
Proof.
  rewrite test_matches. unfold BNS_DOMAIN_REGEX, Plus. split.
  - intros (s1 & s2 & -> & Hname & Hsuffix)%matches_Cat_inv.
    apply matches_Cls_Cat_inv in Hname as (c0 & s0 & -> & Hc0 & Hs0%matches_Star_Cls).
    apply matches_Cls_Cat_inv in Hsuffix as (c1 & ? & -> & Hc1 & Hsuffix).
    apply matches_Cls_Cat_inv in Hsuffix as (c2 & ? & -> & Hc2 & Hsuffix).
    apply matches_Cls_Cat_inv in Hsuffix as (c3 & ? & -> & Hc3 & Hsuffix).
    apply matches_Cls_inv in Hsuffix as (c4 & -> & Hc4).
    rewrite fold_case_dot in Hc1. apply bool_decide_eq_true in Hc1 as ->.
    rewrite fold_case_b in Hc2. rewrite fold_case_t in Hc3. rewrite fold_case_c in Hc4.
    apply orb_true_iff in Hc2, Hc3, Hc4.
    rewrite !bool_decide_eq_true in Hc2, Hc3, Hc4.
    exists (String c0 s0), c2, c3, c4. simpl. rewrite Hc0, Hs0.
    repeat split; auto; discriminate.
  - intros (name & c2 & c3 & c4 & -> & Hne & Ha & H2 & H3 & H4).
    destruct name as [|c0 s0]; [congruence|]. simpl in Ha.
    apply andb_true_iff in Ha as [Hc0 Hs0].
    constructor.
    + change (String c0 s0) with (String c0 "" +:+ s0).
      constructor; [constructor; exact Hc0 | apply matches_Star_Cls; exact Hs0].
    + change (String "." (String c2 (String c3 (String c4 ""))))
        with (String "." "" +:+ (String c2 "" +:+ (String c3 "" +:+ String c4 ""))).
      constructor; [constructor; reflexivity|].
      constructor; [constructor; rewrite fold_case_b; destruct H2 as [-> | ->]; reflexivity|].
      constructor; [constructor; rewrite fold_case_t; destruct H3 as [-> | ->]; reflexivity|].
      constructor. rewrite fold_case_c. destruct H4 as [-> | ->]; reflexivity.
Qed.

(** A direct address starts with ["SP"] and has 41 code units. *)
Lemma STACKS_ADDRESS_prefix_length (a : string) :
  test STACKS_ADDRESS_REGEX a = true →
  startsWith a "SP" = true ∧ String.length a = STACKS_ADDRESS_LENGTH.
Proof.
  intros (t & -> & Hl & _)%STACKS_ADDRESS_shape. split.
  - destruct t; reflexivity.
  - rewrite sapp_length, Hl. reflexivity.
Qed.

(** No string matches both patterns: a domain name holds a dot. *)
Lemma STACKS_ADDRESS_not_BNS (a : string) :
  test STACKS_ADDRESS_REGEX a = true → test BNS_DOMAIN_REGEX a = false.
Proof.
  intros (t & -> & _ & Ha)%STACKS_ADDRESS_shape.
  destruct (test BNS_DOMAIN_REGEX ("SP" +:+ t)) eqn:Hb; [exfalso|reflexivity].
  apply BNS_DOMAIN_shape in Hb as (name & c2 & c3 & c4 & Heq & _).
  assert (Hall : all_chars upper_alnum ("SP" +:+ t) = true).
  { rewrite all_chars_app, Ha. reflexivity. }
  rewrite Heq, all_chars_app in Hall.
  apply andb_true_iff in Hall as [_ Hall]. simpl in Hall. discriminate.
Qed.

Lemma test_nonempty (r : regex) (a : string) :
  nullable r = false → test r a = true → nonempty a = true.
Proof. destruct a; simpl; [congruence | auto]. Qed.

End AddressPatternFacts.

(** ** TransferNFTModal: classification, confirmation and submission *)

Section TransferNFTModalFacts.
Import JS Regex TransferNFTModal.

Lemma nonempty_true (s : string) : nonempty s = true ↔ s ≠ ""%string.
Proof. destruct s; simpl; split; congruence. Qed.

Lemma validateAddress_frame (address : string) (st : State) :
  let st' := validateAddress address st in
  recipient st' = recipient st ∧ memo st' = memo st ∧ errors st' = errors st
  ∧ isSubmitting st' = isSubmitting st ∧ showConfirmation st' = showConfirmation st.
Proof.
  unfold validateAddress.
  destruct (nonempty address); simpl; [|repeat split].
  destruct (test BNS_DOMAIN_REGEX address); [repeat split|].
  destruct (test STACKS_ADDRESS_REGEX address); [repeat split|].
  destruct (startsWith address "SP"
              && bool_decide (String.length address = STACKS_ADDRESS_LENGTH)); repeat split.
Qed.

Lemma validateAddress_domain (address : string) (st : State) :
  test BNS_DOMAIN_REGEX address = true →
  addressValid (validateAddress address st) = Some true
  ∧ resolvedAddress (validateAddress address st) = Some mockResolvedAddress.
Proof.
  intros Hb. unfold validateAddress.
  rewrite (test_nonempty BNS_DOMAIN_REGEX address eq_refl Hb), Hb. split; reflexivity.
Qed.

Lemma validateAddress_direct (address : string) (st : State) :
  test STACKS_ADDRESS_REGEX address = true →
  addressValid (validateAddress address st) = Some true
  ∧ resolvedAddress (validateAddress address st) = None.
Proof.
  intros Hs. unfold validateAddress.
  rewrite (test_nonempty STACKS_ADDRESS_REGEX address eq_refl Hs).
  rewrite (STACKS_ADDRESS_not_BNS _ Hs), Hs. split; reflexivity.
Qed.

(** C1. The classification that the debounced effect leaves, for every
    recipient string: the empty string gets no verdict; a string of the
    domain pattern is valid and gets the resolved address; a string of the
    direct-address pattern is valid with no resolved address; any other
    string is valid, with no resolved address, exactly when it starts with
    ["SP"] and has 41 code units, and invalid otherwise. The other fields
    of the form are not touched. *)
Theorem C1_validateAddress_verdicts (address : string) (st : State) :
  let st' := validateAddress address st in
  (address = ""%string → addressValid st' = None ∧ resolvedAddress st' = None)
  ∧ (address ≠ ""%string →
       (test BNS_DOMAIN_REGEX address = true →
          addressValid st' = Some true ∧ resolvedAddress st' = Some mockResolvedAddress)
       ∧ (test STACKS_ADDRESS_REGEX address = true →
          addressValid st' = Some true ∧ resolvedAddress st' = None)
       ∧ (test BNS_DOMAIN_REGEX address = false →
          test STACKS_ADDRESS_REGEX address = false →
          addressValid st'
            = Some (startsWith address "SP"
                    && bool_decide (String.length address = STACKS_ADDRESS_LENGTH))
          ∧ resolvedAddress st' = None)
       ∧ isValidating st' = false)
  ∧ recipient st' = recipient st ∧ memo st' = memo st ∧ errors st' = errors st
  ∧ isSubmitting st' = isSubmitting st ∧ showConfirmation st' = showConfirmation st.
Proof.
  cbv zeta. split; [|split].
  - intros ->. split; reflexivity.
  - intros Hne%nonempty_true.
    split; [apply validateAddress_domain|]. split; [apply validateAddress_direct|].
    unfold validateAddress. rewrite Hne. simpl. split.
    + intros -> ->.
      destruct (startsWith address "SP"
              && bool_decide (String.length address = STACKS_ADDRESS_LENGTH)); split; reflexivity.
    + destruct (test BNS_DOMAIN_REGEX address); [reflexivity|].
      destruct (test STACKS_ADDRESS_REGEX address); [reflexivity|].
      destruct (startsWith address "SP"
              && bool_decide (String.length address = STACKS_ADDRESS_LENGTH)); reflexivity.
  - apply validateAddress_frame.
Qed.

(** C1, the input that the three-way reading misses: ["SP"] followed by 39
    lower-case letters matches neither pattern and is classified valid. *)
Lemma C1_lowercase_address_valid :
  test BNS_DOMAIN_REGEX Samples.lowercase_address = false
  ∧ test STACKS_ADDRESS_REGEX Samples.lowercase_address = false
  ∧ nonempty Samples.lowercase_address = true
  ∧ addressValid (validateAddress Samples.lowercase_address initial) = Some true
  ∧ resolvedAddress (validateAddress Samples.lowercase_address initial) = None.
Proof. repeat split; vm_compute; reflexivity. Qed.

Section WithBuiltins.
Context `{Builtins}.

Lemma validate_passes (p : Props) (st : State) :
  nonempty (recipient st) = true → addressValid st = Some true → hasEnoughGas p = true →
  validate p st = (true, set_errors ∅ st).
Proof.
  intros Hr Hv Hg. unfold validate, newErrors. rewrite Hr, Hv, Hg. simpl.
  rewrite map_size_empty. reflexivity.
Qed.

(** What [handleSubmit] does once validation has passed. *)
Lemma handleSubmit_valid (p : Props) (ok : bool) (st : State) :
  fst (validate p st) = true →
  handleSubmit p ok st
  = (fst (handleSubmit_settle ok (set_isSubmitting true (set_errors (newErrors p st) st))),
     OnTransfer (transferData p st) :: (if ok then [OnClose] else [])).
Proof.
  unfold handleSubmit, validate. cbn [fst]. intros ->. cbn [negb].
  unfold handleSubmit_settle. destruct ok; reflexivity.
Qed.



Lemma primary_enabled (p : Props) (st : State) :
  isLoading p = false → isSubmitting st = false →
  addressValid st = Some true → hasEnoughGas p = true →
  primary_disabled p st = false.
Proof. unfold primary_disabled. intros -> -> -> ->. reflexivity. Qed.

(** Continue and Confirm, pressed one after the other on a form that
    validates: the transfer is called with what the form holds. *)
Lemma continue_confirm (p : Props) (st : State) (n : nat) (cs : list Call) (ok' ok : bool) :
  isLoading p = false → isSubmitting st = false → showConfirmation st = false →
  nonempty (recipient st) = true → addressValid st = Some true → hasEnoughGas p = true →
  calls (run_from p [ClickPrimary ok'; ClickPrimary ok] (mkSession st n cs))
  = cs ++ OnTransfer (transferData p st) :: (if ok then [OnClose] else []).
Proof.
  intros Hl Hs Hc Hr Hv Hg. unfold run_from. cbn [fold_left].
  unfold step at 2. cbn [form pending calls].
  rewrite (primary_enabled p st Hl Hs Hv Hg), Hc.
  unfold handleContinue. rewrite (validate_passes p st Hr Hv Hg).
  unfold step. cbn [form pending calls].
  rewrite primary_enabled by assumption.
  change (showConfirmation (set_showConfirmation true (set_errors ∅ st))) with true.
  cbn match.
  rewrite handleSubmit_valid by (rewrite validate_passes; auto).
  cbn [calls]. reflexivity.
Qed.


End WithBuiltins.

(** C5. When the form validates and the promise of [onTransfer] is
    rejected, the modal shows the input view again, the error map is the one
    submission message, and recipient, memo and the address verdict are as
    typed. When the promise is fulfilled, [onClose] is called after
    [onTransfer], and the next opening empties recipient, memo, verdict,
    resolved address and errors and shows the input view. *)
Theorem C5_handleSubmit_outcome `{Builtins} (p : Props) (st : State) :
  fst (validate p st) = true →
  let failed := handleSubmit p false st in
  let done := handleSubmit p true st in
  (view (fst failed) = InputView
   ∧ errors (fst failed) = {[ "submit" := "Failed to transfer NFT. Please try again." ]}
   ∧ recipient (fst failed) = recipient st
   ∧ memo (fst failed) = memo st
   ∧ addressValid (fst failed) = addressValid st
   ∧ resolvedAddress (fst failed) = resolvedAddress st
   ∧ isSubmitting (fst failed) = false
   ∧ snd failed = [OnTransfer (transferData p st)])
  ∧ (snd done = [OnTransfer (transferData p st); OnClose]
     ∧ isSubmitting (fst done) = false
     ∧ onOpen (fst done) = mkState "" "" (isValidating st) None None ∅ false false).
Proof.
  intros Hv. cbv zeta.
  rewrite (handleSubmit_valid p false st Hv), (handleSubmit_valid p true st Hv).
  unfold handleSubmit_settle. cbn [fst snd]. repeat split.
Qed.

Lemma C5_handleSubmit_outcome_witness :
  let _ := SampleRuntime.sample_builtins in
  fst (validate Samples.transfer_props Samples.transfer_confirming) = true
  ∧ view (fst (handleSubmit Samples.transfer_props false Samples.transfer_confirming))
    = InputView
  ∧ recipient (fst (handleSubmit Samples.transfer_props false Samples.transfer_confirming))
    = Samples.domain_name.
Proof.
  pose proof (@C5_handleSubmit_outcome SampleRuntime.sample_builtins
                Samples.transfer_props Samples.transfer_confirming eq_refl)
    as [(Hview & _ & Hrec & _) _].
  exact (conj eq_refl (conj Hview Hrec)).
Defined.




End TransferNFTModalFacts.

(** ** CollectionFilter: toggling a trait value *)

Section TraitFacts.
Import JS CollectionFilter.

Section Toggle.
Context `{Countable A}.

Lemma filter_ne_not_elem (x : A) (l : list A) : x ∉ filter (λ y, y ≠ x) l.
Proof. rewrite list_elem_of_filter. tauto. Qed.

Lemma filter_ne_id (x : A) (l : list A) : x ∉ l → filter (λ y, y ≠ x) l = l.
Proof.
  induction l as [|y l IH]; [reflexivity|].
  rewrite not_elem_of_cons. intros [Hxy Hl].
  rewrite filter_cons_True by congruence. rewrite IH by exact Hl. reflexivity.
Qed.

Lemma filter_ne_snoc (x : A) (l : list A) :
  filter (λ y, y ≠ x) (l ++ [x]) = filter (λ y, y ≠ x) l.
Proof.
  rewrite filter_app, filter_cons_False, filter_nil by tauto.
  apply app_nil_r.
Qed.

(** Removing [x] and adding it again keeps the set of members. *)
Lemma list_to_set_filter_ne_snoc (x : A) (l : list A) :
  x ∈ l → list_to_set (filter (λ y, y ≠ x) l ++ [x]) =@{gset A} list_to_set l.
Proof.
  intros Hx. apply set_eq. intros y.
  rewrite !elem_of_list_to_set, elem_of_app, list_elem_of_filter, list_elem_of_singleton.
  destruct (decide (y = x)) as [->|Hne]; [tauto|]. split.
  - intros [[_ Hy]|Hy]; [assumption | contradiction].
  - intros Hy. left. split; assumption.
Qed.

(** When removing [x] leaves nothing, [x] was the only member. *)
Lemma list_to_set_filter_ne_nil (x : A) (l : list A) :
  x ∈ l → filter (λ y, y ≠ x) l = [] → list_to_set l =@{gset A} {[ x ]}.
Proof.
  intros Hx Hnil. apply set_eq. intros y.
  rewrite elem_of_list_to_set, elem_of_singleton. split; [|intros ->; exact Hx].
  intros Hy. destruct (decide (y = x)) as [|Hne]; [assumption|].
  assert (Hin : y ∈ filter (λ z, z ≠ x) l) by (apply list_elem_of_filter; auto).
  rewrite Hnil in Hin. inversion Hin.
Qed.

End Toggle.

Lemma currentValues_elem (m : gmap string (list string)) (t v : string) :
  v ∈ currentValues m t → m !! t = Some (currentValues m t).
Proof.
  unfold currentValues. destruct (m !! t); simpl; [reflexivity|].
  intros Hv. inversion Hv.
Qed.

Lemma currentValues_nil (m : gmap string (list string)) (t : string) :
  traits_wf m → currentValues m t = [] → m !! t = None.
Proof.
  unfold currentValues. intros Hwf. destruct (m !! t) as [l|] eqn:Hl; simpl; [|reflexivity].
  intros ->. exfalso. exact (Hwf t [] Hl eq_refl).
Qed.

Lemma currentValues_lookup (m : gmap string (list string)) (t : string) :
  currentValues m t ≠ [] → m !! t = Some (currentValues m t).
Proof. unfold currentValues. destruct (m !! t); simpl; congruence. Qed.

Lemma newValues_selected (m : gmap string (list string)) (t v : string) :
  v ∈ currentValues m t →
  newValues m t v = filter (λ x, x ≠ v) (currentValues m t).
Proof. intros Hv. unfold newValues. rewrite bool_decide_eq_true_2 by exact Hv. reflexivity. Qed.

Lemma newValues_unselected (m : gmap string (list string)) (t v : string) :
  v ∉ currentValues m t → newValues m t v = currentValues m t ++ [v].
Proof. intros Hv. unfold newValues. rewrite bool_decide_eq_false_2 by exact Hv. reflexivity. Qed.

Lemma newTraits_nil (m : gmap string (list string)) (t v : string) :
  newValues m t v = [] → newTraits m t v = delete t m.
Proof. intros Hn. unfold newTraits. rewrite Hn. reflexivity. Qed.

Lemma newTraits_cons (m : gmap string (list string)) (t v : string) :
  newValues m t v ≠ [] → newTraits m t v = <[t := newValues m t v]> m.
Proof.
  intros Hn. unfold newTraits.
  rewrite bool_decide_eq_false_2; [reflexivity|].
  destruct (newValues m t v); [congruence | discriminate].
Qed.

Lemma currentValues_insert (m : gmap string (list string)) (t : string) (l : list string) :
  currentValues (<[t := l]> m) t = l.
Proof. unfold currentValues. rewrite lookup_insert_eq. reflexivity. Qed.

Lemma currentValues_delete (m : gmap string (list string)) (t : string) :
  currentValues (delete t m) t = [].
Proof. unfold currentValues. rewrite lookup_delete_eq. reflexivity. Qed.

(** The invariant is kept by a toggle. *)
Lemma newTraits_wf (m : gmap string (list string)) (t v : string) :
  traits_wf m → traits_wf (newTraits m t v).
Proof.
  intros Hwf. destruct (decide (newValues m t v = [])) as [Hn|Hn].
  - rewrite (newTraits_nil _ _ _ Hn). apply map_Forall_delete. exact Hwf.
  - rewrite (newTraits_cons _ _ _ Hn). apply map_Forall_insert_2; assumption.
Qed.

(** Selecting a value and deselecting it again gives back the very same
    object, order of the arrays included. *)
Lemma newTraits_select_deselect (m : gmap string (list string)) (t v : string) :
  traits_wf m → v ∉ currentValues m t → newTraits (newTraits m t v) t v = m.
Proof.
  intros Hwf Hv.
  assert (Hn1 : newValues m t v = currentValues m t ++ [v])
    by (apply newValues_unselected; exact Hv).
  rewrite (newTraits_cons m t v) by (rewrite Hn1; destruct (currentValues m t); discriminate).
  rewrite Hn1.
  assert (Hn2 : newValues (<[t := currentValues m t ++ [v]]> m) t v = currentValues m t).
  { rewrite newValues_selected; rewrite currentValues_insert.
    - rewrite filter_ne_snoc. apply filter_ne_id. exact Hv.
    - apply elem_of_app. right. apply list_elem_of_singleton. reflexivity. }
  destruct (decide (currentValues m t = [])) as [Hnil|Hcons].
  - rewrite newTraits_nil by (rewrite Hn2; exact Hnil).
    rewrite delete_insert_eq. apply delete_id. apply currentValues_nil; assumption.
  - rewrite newTraits_cons by (rewrite Hn2; exact Hcons).
    rewrite Hn2, insert_insert_eq. apply insert_id. apply currentValues_lookup. exact Hcons.
Qed.

(** Deselecting a value and selecting it again gives back the same
    selections; the value moves to the end of its array. *)
Lemma newTraits_deselect_select (m : gmap string (list string)) (t v : string) :
  v ∈ currentValues m t →
  newTraits (newTraits m t v) t v
  = <[t := filter (λ x, x ≠ v) (currentValues m t) ++ [v]]> m.
Proof.
  intros Hv. pose proof (newValues_selected m t v Hv) as Hn1.
  destruct (decide (newValues m t v = [])) as [Hnil|Hcons].
  - rewrite (newTraits_nil m t v Hnil).
    assert (Hn2 : newValues (delete t m) t v = [v]).
    { rewrite newValues_unselected; rewrite currentValues_delete; [reflexivity|].
      apply not_elem_of_nil. }
    rewrite newTraits_cons by (rewrite Hn2; discriminate).
    rewrite Hn2, insert_delete_eq, <- Hn1, Hnil. reflexivity.
  - rewrite (newTraits_cons m t v Hcons).
    assert (Hn2 : newValues (<[t := newValues m t v]> m) t v = newValues m t v ++ [v]).
    { rewrite newValues_unselected; rewrite currentValues_insert; [reflexivity|].
      rewrite Hn1. apply filter_ne_not_elem. }
    rewrite newTraits_cons by (rewrite Hn2; destruct (newValues m t v); discriminate).
    rewrite Hn2, insert_insert_eq, Hn1. reflexivity.
Qed.

Lemma newTraits_twice_selection (m : gmap string (list string)) (t v : string) :
  traits_wf m → selection (newTraits (newTraits m t v) t v) = selection m.
Proof.
  intros Hwf. destruct (decide (v ∈ currentValues m t)) as [Hv|Hv].
  - rewrite (newTraits_deselect_select m t v Hv). unfold selection.
    rewrite fmap_insert. apply insert_id.
    rewrite lookup_fmap, (currentValues_elem m t v Hv). simpl. f_equal.
    symmetry. apply list_to_set_filter_ne_snoc. exact Hv.
  - rewrite (newTraits_select_deselect m t v Hwf Hv). reflexivity.
Qed.

(** C7. On a filter state that keeps no trait with an empty selection,
    toggling the same value of the same trait twice gives back the
    selections that were there: every trait has the set of values it had
    (a value that was deselected and selected again now stands last in its
    array), and no other field changes. After a toggle no trait is left
    with an empty selection: when the toggle removes the last value of the
    trait, the key is deleted. *)
Theorem C7_toggleTraitValue_round_trip (f : FilterState) (t v : string) :
  traits_wf (traits f) →
  let f1 := toggleTraitValue f t v in
  let f2 := toggleTraitValue f1 t v in
  selection (traits f2) = selection (traits f)
  ∧ set_traits (traits f) f2 = f
  ∧ traits_wf (traits f1)
  ∧ (newValues (traits f) t v = [] → traits f1 !! t = None).
Proof.
  intros Hwf. cbv zeta. destruct f as [pr rs ss m cur sb]. simpl in *.
  split; [apply newTraits_twice_selection; exact Hwf|].
  split; [reflexivity|].
  split; [apply newTraits_wf; exact Hwf|].
  intros Hn. rewrite (newTraits_nil m t v Hn). apply lookup_delete_eq.
Qed.

Lemma C7_toggleTraitValue_round_trip_witness :
  let f := mkFilterState DEFAULT_PRICE_RANGE [] [] Samples.two_hats STX "recent" in
  traits_wf (traits f)
  ∧ traits (toggleTraitValue (toggleTraitValue f "Hat" "Cap") "Hat" "Cap") !! "Hat"
    = Some ["Crown"; "Cap"]
  ∧ selection (traits (toggleTraitValue (toggleTraitValue f "Hat" "Cap") "Hat" "Cap"))
    = selection (traits f).
Proof.
  assert (Hwf : traits_wf Samples.two_hats).
  { apply (bool_decide_unpack _). vm_compute. exact I. }
  split; [exact Hwf|]. split; [vm_compute; reflexivity|].
  exact (proj1 (C7_toggleTraitValue_round_trip
                  (mkFilterState DEFAULT_PRICE_RANGE [] [] Samples.two_hats STX "recent")
                  "Hat" "Cap" Hwf)).
Defined.

End TraitFacts.

(** ** useCollection: the pagination cursor *)

Section UseCollectionFacts.
Import UseCollection.
Open Scope Z_scope.

Lemma fetchNFTs_hasMore (total pageNum : Z) (append : bool) (st : State) :
  hasMore (fetchNFTs total pageNum append st) = (pageNum * PAGE_SIZE <? total).
Proof.
  unfold fetchNFTs, PAGE_SIZE. cbn [hasMore].
  destruct (Z.ltb_spec (pageNum * 24) total);
    [apply Z.ltb_lt | apply Z.ltb_ge]; lia.
Qed.

(** C4. The relation [hasMore = page * 24 < totalCount] is what every
    completed [fetchNFTs] establishes: [fetchNFTs total pageNum] leaves
    [hasMore = (pageNum * 24 < total)], for all integers, so the state that
    the effect on [page] and [totalCount] produces satisfies the relation.
    The other transitions keep [hasMore] as it is, also when they change
    [page] or [totalCount], and the initial value of [hasMore] is [true]. *)
Theorem C4_hasMore_after_fetch :
  (∀ total pageNum append st,
     hasMore (fetchNFTs total pageNum append st) = (pageNum * PAGE_SIZE <? total))
  ∧ (∀ st, cursor_consistent (fetchNFTs (totalCount st) (page st) (1 <? page st) st) = true)
  ∧ (∀ n st, hasMore (setPage n st) = hasMore st ∧ page (setPage n st) = n)
  ∧ (∀ st, hasMore (fetchMore st) = hasMore st)
  ∧ (∀ st, hasMore (fetchCollection st) = hasMore st
           ∧ totalCount (fetchCollection st) = mock_totalSupply)
  ∧ (∀ st, hasMore (refresh_reset st) = hasMore st ∧ page (refresh_reset st) = 1)
  ∧ hasMore initial = true ∧ page initial = 1 ∧ totalCount initial = 0
  ∧ PAGE_SIZE = 24.
Proof.
  split; [apply fetchNFTs_hasMore|].
  split.
  { intros st. unfold cursor_consistent. apply bool_decide_eq_true_2.
    rewrite fetchNFTs_hasMore. reflexivity. }
  split; [intros; split; reflexivity|].
  split; [intros st; unfold fetchMore; destruct (negb (hasMore st) || isLoading st);
          reflexivity|].
  repeat split.
Qed.

(** C4, the state that breaks the relation: the hook starts with
    [page = 1], [totalCount = 0] and [hasMore = true], and [1 * 24 < 0] is
    false. *)
Lemma C4_initial_cursor_inconsistent :
  reachable initial
  ∧ hasMore initial = true
  ∧ (page initial * PAGE_SIZE <? totalCount initial) = false
  ∧ cursor_consistent initial = false.
Proof. split; [constructor|]. repeat split. Qed.

End UseCollectionFacts.

(** ** BurnNFTModal: the typed confirmation *)

Section BurnNFTModalFacts.
Import JS BurnNFTModal.

Lemma upper_char_B (c : ascii) : upper_char c = "B"%char ↔ (c = "b" ∨ c = "B")%char.
Proof.
  destruct c as [[] [] [] [] [] [] [] []]; vm_compute;
    (split; [intros; first [discriminate | auto] | intros [|]; first [discriminate | auto]]).
Qed.

Lemma upper_char_U (c : ascii) : upper_char c = "U"%char ↔ (c = "u" ∨ c = "U")%char.
Proof.
  destruct c as [[] [] [] [] [] [] [] []]; vm_compute;
    (split; [intros; first [discriminate | auto] | intros [|]; first [discriminate | auto]]).
Qed.

Lemma upper_char_R (c : ascii) : upper_char c = "R"%char ↔ (c = "r" ∨ c = "R")%char.
Proof.
  destruct c as [[] [] [] [] [] [] [] []]; vm_compute;
    (split; [intros; first [discriminate | auto] | intros [|]; first [discriminate | auto]]).
Qed.

Lemma upper_char_N (c : ascii) : upper_char c = "N"%char ↔ (c = "n" ∨ c = "N")%char.
Proof.
  destruct c as [[] [] [] [] [] [] [] []]; vm_compute;
    (split; [intros; first [discriminate | auto] | intros [|]; first [discriminate | auto]]).
Qed.

(** The texts that upper-case to [BURN] are its sixteen spellings. *)
Lemma toUpperCase_BURN (s : string) :
  toUpperCase s = "BURN"%string ↔
  ∃ c1 c2 c3 c4 : ascii,
    s = String c1 (String c2 (String c3 (String c4 "")))
    ∧ (c1 = "b" ∨ c1 = "B")%char ∧ (c2 = "u" ∨ c2 = "U")%char
    ∧ (c3 = "r" ∨ c3 = "R")%char ∧ (c4 = "n" ∨ c4 = "N")%char.
Proof.
  split.
  - destruct s as [|c1 [|c2 [|c3 [|c4 [|c5 s]]]]]; simpl; intros Heq; try discriminate.
    injection Heq as H1 H2 H3 H4.
    exists c1, c2, c3, c4. split; [reflexivity|].
    rewrite <- upper_char_B, <- upper_char_U, <- upper_char_R, <- upper_char_N. auto.
  - intros (c1 & c2 & c3 & c4 & -> & H1 & H2 & H3 & H4).
    unfold toUpperCase. cbn [map_string].
    apply upper_char_B in H1. apply upper_char_U in H2.
    apply upper_char_R in H3. apply upper_char_N in H4.
    rewrite H1, H2, H3, H4. reflexivity.
Qed.

(** C9. The confirmation holds exactly for the sixteen spellings of
    [BURN], that is when the text equals [BURN] up to the case of its
    letters. With any other text the button is disabled and [handleBurn]
    does nothing; the same holds when the balance is below the gas estimate
    0.0003. With a confirming text and a sufficient balance [handleBurn]
    calls [onBurn] with the NFT's id and token id, and the button is
    disabled only while a submission or the parent's loading is under way. *)
Theorem C9_burn_enabled (p : Props) (st : State) (ok : bool) :
  (isConfirmed st = true ↔
     ∃ c1 c2 c3 c4 : ascii,
       confirmText st = String c1 (String c2 (String c3 (String c4 "")))
       ∧ (c1 = "b" ∨ c1 = "B")%char ∧ (c2 = "u" ∨ c2 = "U")%char
       ∧ (c3 = "r" ∨ c3 = "R")%char ∧ (c4 = "n" ∨ c4 = "N")%char)
  ∧ (isConfirmed st = false →
       burn_disabled p st = true ∧ handleBurn p ok st = (st, []))
  ∧ (hasEnoughGas p = false →
       burn_disabled p st = true ∧ handleBurn p ok st = (st, []))
  ∧ (isConfirmed st = true → hasEnoughGas p = true →
       burn_disabled p st = loading p st
       ∧ snd (handleBurn p ok st)
         = OnBurn (id (nft p)) (tokenId (nft p)) :: (if ok then [OnClose] else []))
  ∧ hasEnoughGas p = ge (userBalance p) (dec 3 4).
Proof.
  split.
  { unfold isConfirmed, requiredConfirmText.
    rewrite bool_decide_eq_true. apply toUpperCase_BURN. }
  unfold burn_disabled, handleBurn.
  split; [intros ->; rewrite !orb_true_r; destruct (loading p st); auto|].
  split; [intros ->; rewrite !orb_true_r; auto|].
  split; [|reflexivity].
  intros -> ->. rewrite !orb_false_r. destruct ok; auto.
Qed.

End BurnNFTModalFacts.

(** ** MakeOfferModal: the balance check *)

Section MakeOfferModalFacts.
Import JS MakeOfferModal.

Lemma gt_not_le (a b : number) : gt a b = true → le a b = false.
Proof.
  unfold gt, le, SFltb, SFleb.
  destruct (SFcompare b a) as [c|] eqn:Hc; [|discriminate].
  destruct c; try discriminate. intros _.
  rewrite (SFcompare_antisym b a Lt Hc). reflexivity.
Qed.

(** C10. The balance check passes exactly when the offer is at most the STX
    balance or at most the WSTX balance, each taken alone. A positive offer
    above each of the two balances is rejected: the error map is the one
    message about the insufficient balance, which reports the sum of the
    two balances, validation fails and [handleSubmit] calls nothing. This
    holds also when the offer is within the sum. *)
Theorem C10_insufficient_balance `{Builtins} (p : Props) (st : State) (ok : bool) :
  (hasEnoughBalance p st = true ↔
     le (offerAmount st) (userBalance p) = true ∨ le (offerAmount st) (wstxBalance p) = true)
  ∧ (nonempty (amount st) = true →
     gt (offerAmount st) (of_Z 0) = true →
     gt (offerAmount st) (userBalance p) = true →
     gt (offerAmount st) (wstxBalance p) = true →
     hasEnoughBalance p st = false
     ∧ newErrors p st
       = {[ "amount" := "Insufficient balance. You have "
                        +:+ toFixed (add (userBalance p) (wstxBalance p)) 4 +:+ " STX" ]}
     ∧ fst (validate p st) = false
     ∧ handleSubmit p ok st = (set_errors (newErrors p st) st, [])).
Proof.
  split; [unfold hasEnoughBalance; apply orb_true_iff|].
  intros Hne H0 Hu Hw.
  apply gt_not_le in H0, Hu, Hw.
  assert (Hb : hasEnoughBalance p st = false).
  { unfold hasEnoughBalance. rewrite Hu, Hw. reflexivity. }
  assert (He : newErrors p st
               = {[ "amount" := "Insufficient balance. You have "
                                +:+ toFixed (add (userBalance p) (wstxBalance p)) 4
                                +:+ " STX" ]}).
  { unfold newErrors. rewrite Hne, H0, Hb. reflexivity. }
  assert (Hv : fst (validate p st) = false).
  { unfold validate. cbn [fst]. rewrite He, map_size_singleton. reflexivity. }
  split; [exact Hb|]. split; [exact He|]. split; [exact Hv|].
  unfold handleSubmit. unfold validate in *. cbn [fst] in Hv. rewrite Hv. reflexivity.
Qed.

Lemma C10_insufficient_balance_witness :
  let _ := SampleRuntime.sample_builtins in
  le (offerAmount Samples.offer_of_15) (totalBalance Samples.offer_props) = true
  ∧ newErrors Samples.offer_props Samples.offer_of_15
    = {[ "amount" := "Insufficient balance. You have 20.0000 STX" ]}
  ∧ snd (handleSubmit Samples.offer_props true Samples.offer_of_15) = [].
Proof.
  pose proof (proj2 (@C10_insufficient_balance SampleRuntime.sample_builtins
                       Samples.offer_props Samples.offer_of_15 true)
                eq_refl eq_refl eq_refl eq_refl) as (_ & He & _ & Hs).
  split; [vm_compute; reflexivity|]. split; [exact He|].
  rewrite Hs. reflexivity.
Defined.

End MakeOfferModalFacts.

(** ** CollectionFilter: the toggles and the count of active filters *)

Section ToggleFacts.
Import JS CollectionFilter.

Section Toggled.
Context {A : Type} `{EqDecision A}.
Implicit Types (x y : A) (l : list A).

Lemma toggled_selected x l : x ∈ l → toggled x l = filter (λ y, y ≠ x) l.
Proof. intros Hx. unfold toggled. rewrite bool_decide_eq_true_2 by exact Hx. reflexivity. Qed.

Lemma toggled_unselected x l : x ∉ l → toggled x l = l ++ [x].
Proof. intros Hx. unfold toggled. rewrite bool_decide_eq_false_2 by exact Hx. reflexivity. Qed.

Lemma filter_neq_unselected x l : x ∉ l → filter (λ y, y ≠ x) l = l.
Proof.
  induction l as [|y l IH]; [reflexivity|].
  rewrite not_elem_of_cons. intros [Hxy Hl].
  rewrite filter_cons_True by congruence. rewrite IH by exact Hl. reflexivity.
Qed.

Lemma filter_neq_snoc x l : filter (λ y, y ≠ x) (l ++ [x]) = filter (λ y, y ≠ x) l.
Proof.
  rewrite filter_app, filter_cons_False, filter_nil by tauto.
  apply app_nil_r.
Qed.

Lemma elem_of_toggled_same x l : x ∈ toggled x l ↔ x ∉ l.
Proof.
  destruct (decide (x ∈ l)) as [Hx|Hx].
  - rewrite (toggled_selected x l Hx), list_elem_of_filter. tauto.
  - rewrite (toggled_unselected x l Hx), elem_of_app, list_elem_of_singleton. tauto.
Qed.

Lemma elem_of_toggled_other x y l : y ≠ x → y ∈ toggled x l ↔ y ∈ l.
Proof.
  intros Hne. destruct (decide (x ∈ l)) as [Hx|Hx].
  - rewrite (toggled_selected x l Hx), list_elem_of_filter. tauto.
  - rewrite (toggled_unselected x l Hx), elem_of_app, list_elem_of_singleton. tauto.
Qed.

Lemma NoDup_toggled x l : NoDup l → NoDup (toggled x l).
Proof.
  intros Hl. destruct (decide (x ∈ l)) as [Hx|Hx].
  - rewrite (toggled_selected x l Hx). apply NoDup_filter. exact Hl.
  - rewrite (toggled_unselected x l Hx). apply NoDup_app.
    split; [exact Hl|]. split; [|apply NoDup_singleton].
    intros y Hy ->%list_elem_of_singleton. contradiction.
Qed.

Lemma toggled_twice_unselected x l : x ∉ l → toggled x (toggled x l) = l.
Proof.
  intros Hx. rewrite (toggled_unselected x l Hx).
  rewrite toggled_selected
    by (apply elem_of_app; right; apply list_elem_of_singleton; reflexivity).
  rewrite filter_neq_snoc. apply filter_neq_unselected. exact Hx.
Qed.

Lemma toggled_twice_selected x l :
  x ∈ l → toggled x (toggled x l) = filter (λ y, y ≠ x) l ++ [x].
Proof.
  intros Hx. rewrite (toggled_selected x l Hx).
  apply toggled_unselected. rewrite list_elem_of_filter. tauto.
Qed.

Lemma length_toggled_unselected x l : x ∉ l → length (toggled x l) = S (length l).
Proof.
  intros Hx. rewrite (toggled_unselected x l Hx), length_app. simpl. lia.
Qed.

Lemma length_toggled_selected x l :
  NoDup l → x ∈ l → S (length (toggled x l)) = length l.
Proof.
  intros Hl Hx. rewrite (toggled_selected x l Hx).
  induction Hl as [|y l Hy Hl IH]; [inversion Hx|].
  destruct (decide (y = x)) as [->|Hne].
  - rewrite filter_cons_False by tauto.
    rewrite filter_neq_unselected by exact Hy. reflexivity.
  - rewrite filter_cons_True by exact Hne. simpl. f_equal. apply IH.
    apply elem_of_cons in Hx as [Hx|Hx]; [congruence | exact Hx].
Qed.

End Toggled.

(** X1. [toggleRarity] flips the membership of the rarity it is given and
    of no other, keeps a duplicate-free array duplicate-free and changes no
    other field of the filter state. *)
Theorem toggleRarity_flips (f : FilterState) (r : RarityLevel) :
  (r ∈ rarities (toggleRarity f r) ↔ r ∉ rarities f)
  ∧ (∀ r', r' ≠ r → r' ∈ rarities (toggleRarity f r) ↔ r' ∈ rarities f)
  ∧ (NoDup (rarities f) → NoDup (rarities (toggleRarity f r)))
  ∧ set_rarities (rarities f) (toggleRarity f r) = f.
Proof.
  change (rarities (toggleRarity f r)) with (toggled r (rarities f)).
  split; [apply elem_of_toggled_same|].
  split; [intros r'; apply elem_of_toggled_other|].
  split; [apply NoDup_toggled|].
  destruct f; reflexivity.
Qed.

(** X2. Toggling a status twice: when the status was not selected the
    filter state is the one before, array order included; when it was
    selected it now stands last in the array; in both cases the selected
    statuses are the same. *)
Theorem toggleStatus_twice (f : FilterState) (s : StatusOption) :
  (s ∉ statuses f → toggleStatus (toggleStatus f s) s = f)
  ∧ (s ∈ statuses f →
       statuses (toggleStatus (toggleStatus f s) s)
       = filter (λ x, x ≠ s) (statuses f) ++ [s])
  ∧ (∀ s', s' ∈ statuses (toggleStatus (toggleStatus f s) s) ↔ s' ∈ statuses f).
Proof.
  change (statuses (toggleStatus (toggleStatus f s) s))
    with (toggled s (toggled s (statuses f))).
  split; [|split].
  - intros Hs. destruct f as [pr rs ss m cur sb]. unfold toggleStatus, set_statuses.
    cbn [statuses priceRange rarities traits currency sortBy] in *.
    f_equal. apply (toggled_twice_unselected s ss Hs).
  - apply toggled_twice_selected.
  - intros s'. destruct (decide (s' = s)) as [->|Hne].
    + rewrite elem_of_toggled_same, elem_of_toggled_same.
      destruct (decide (s ∈ statuses f)); tauto.
    + rewrite !elem_of_toggled_other by exact Hne. reflexivity.
Qed.

Lemma currentValues_newTraits (m : gmap string (list string)) (t v : string) :
  currentValues (newTraits m t v) t = newValues m t v.
Proof.
  destruct (decide (newValues m t v = [])) as [Hn|Hn].
  - rewrite (newTraits_nil m t v Hn), currentValues_delete, Hn. reflexivity.
  - rewrite (newTraits_cons m t v Hn). apply currentValues_insert.
Qed.

Lemma newTraits_other (m : gmap string (list string)) (t t' v : string) :
  t' ≠ t → newTraits m t v !! t' = m !! t'.
Proof.
  intros Hne. destruct (decide (newValues m t v = [])) as [Hn|Hn].
  - rewrite (newTraits_nil m t v Hn). apply lookup_delete_ne. congruence.
  - rewrite (newTraits_cons m t v Hn). apply lookup_insert_ne. congruence.
Qed.

(** X3. [toggleTraitValue] flips the selection of the given value of the
    given trait; the other values of that trait, the other traits and the
    other fields of the filter state are as before. *)
Theorem toggleTraitValue_flips (f : FilterState) (t v : string) :
  (v ∈ currentValues (traits (toggleTraitValue f t v)) t ↔ v ∉ currentValues (traits f) t)
  ∧ (∀ w, w ≠ v →
       w ∈ currentValues (traits (toggleTraitValue f t v)) t ↔ w ∈ currentValues (traits f) t)
  ∧ (∀ t', t' ≠ t → traits (toggleTraitValue f t v) !! t' = traits f !! t')
  ∧ set_traits (traits f) (toggleTraitValue f t v) = f.
Proof.
  change (traits (toggleTraitValue f t v)) with (newTraits (traits f) t v).
  rewrite currentValues_newTraits.
  change (newValues (traits f) t v) with (toggled v (currentValues (traits f) t)).
  split; [apply elem_of_toggled_same|].
  split; [intros w; apply elem_of_toggled_other|].
  split; [intros t'; apply newTraits_other|].
  destruct f; reflexivity.
Qed.

(** X4. On a filter state with no empty selection, selecting a value that
    was not selected and deselecting it again gives back the filter state
    itself, with the same keys and the same arrays. *)
Theorem toggleTraitValue_select_deselect (f : FilterState) (t v : string) :
  traits_wf (traits f) → v ∉ currentValues (traits f) t →
  toggleTraitValue (toggleTraitValue f t v) t v = f.
Proof.
  intros Hwf Hv. destruct f as [pr rs ss m cur sb]. unfold toggleTraitValue, set_traits.
  cbn [statuses priceRange rarities traits currency sortBy] in *.
  f_equal. apply newTraits_select_deselect; assumption.
Qed.

Lemma toggleTraitValue_select_deselect_witness :
  let f := mkFilterState DEFAULT_PRICE_RANGE [] [] Samples.two_hats STX "recent" in
  traits_wf (traits f)
  ∧ ("Beanie" ∉ currentValues (traits f) "Hat")
  ∧ currentValues (traits (toggleTraitValue f "Hat" "Beanie")) "Hat"
    = ["Cap"; "Crown"; "Beanie"]
  ∧ toggleTraitValue (toggleTraitValue f "Hat" "Beanie") "Hat" "Beanie" = f.
Proof.
  assert (Hwf : traits_wf Samples.two_hats).
  { apply (bool_decide_unpack _). vm_compute. exact I. }
  assert (Hv : "Beanie" ∉ currentValues Samples.two_hats "Hat").
  { apply (bool_decide_unpack _). vm_compute. exact I. }
  split; [exact Hwf|]. split; [exact Hv|]. split; [vm_compute; reflexivity|].
  exact (toggleTraitValue_select_deselect
           (mkFilterState DEFAULT_PRICE_RANGE [] [] Samples.two_hats STX "recent")
           "Hat" "Beanie" Hwf Hv).
Defined.

End ToggleFacts.

(** ** CollectionFilter: the count of active filters and the price buffers *)

Section FilterCountFacts.
Import JS CollectionFilter.

Lemma SFcompare_Eq_inv (a b : number) :
  SFcompare a b = Some Eq →
  a = b ∨ (∃ s1 s2, a = S754_zero s1 ∧ b = S754_zero s2).
Proof.
  destruct a as [sa|sa| |sa ma ea], b as [sb|sb| |sb mb eb]; simpl;
    try destruct sa; try destruct sb; intros Hc; try discriminate; eauto.
  - injection Hc as Hc. destruct (ea ?= eb)%Z eqn:He; try discriminate.
    apply Z.compare_eq in He as ->.
    destruct (Pos.compare_cont Eq ma mb) eqn:Hm; try discriminate.
    apply Pcompare_Eq_eq in Hm as ->. auto.
  - injection Hc as Hc. destruct (ea ?= eb)%Z eqn:He; try discriminate.
    apply Z.compare_eq in He as ->.
    apply Pcompare_Eq_eq in Hc as ->. auto.
Qed.

Lemma SFcompare_none_sym (a b : number) : SFcompare a b = None → SFcompare b a = None.
Proof. rewrite !SFcompare_none. tauto. Qed.

Lemma Math_min_comm (a b : number) : Math_min a b = Math_min b a.
Proof.
  unfold Math_min. destruct (SFcompare a b) as [[]|] eqn:Hc.
  - rewrite (SFcompare_antisym a b Eq Hc). simpl.
    destruct (SFcompare_Eq_inv a b Hc) as [->|(s1 & s2 & -> & ->)]; [reflexivity|].
    destruct s1, s2; reflexivity.
  - rewrite (SFcompare_antisym a b Lt Hc). reflexivity.
  - rewrite (SFcompare_antisym a b Gt Hc). reflexivity.
  - rewrite (SFcompare_none_sym a b Hc). reflexivity.
Qed.

Lemma Math_max_comm (a b : number) : Math_max a b = Math_max b a.
Proof.
  unfold Math_max. destruct (SFcompare a b) as [[]|] eqn:Hc.
  - rewrite (SFcompare_antisym a b Eq Hc). simpl.
    destruct (SFcompare_Eq_inv a b Hc) as [->|(s1 & s2 & -> & ->)]; [reflexivity|].
    destruct s1, s2; reflexivity.
  - rewrite (SFcompare_antisym a b Lt Hc). reflexivity.
  - rewrite (SFcompare_antisym a b Gt Hc). reflexivity.
  - rewrite (SFcompare_none_sym a b Hc). reflexivity.
Qed.

Section WithBuiltins.
Context `{Builtins}.

(** X5. After "Clear all" the count of active filters is 0 when [maxPrice]
    is at most 1000 (or is not a number) and 1 when it is above 1000: the
    price range is reset to [[0, 1000]], not to [[0, maxPrice]]. *)
Theorem activeFilterCount_after_clear (p : Props) (l : Local) :
  Forall (λ f, activeFilterCount (with_filters f p)
               = if lt (of_Z 1000) (maxPrice p) then 1 else 0)
         (emitted (clearAllFilters p l)).
Proof.
  unfold clearAllFilters. cbn [emitted]. constructor; [|constructor].
  unfold activeFilterCount, with_filters, DEFAULT_PRICE_RANGE.
  cbn [filters maxPrice priceRange rarities statuses traits fst snd length].
  rewrite map_size_empty.
  change (gt (of_Z 0) (of_Z 0)) with false. cbn [orb].
  destruct (lt (of_Z 1000) (maxPrice p)); reflexivity.
Qed.

(** X6. The count of active filters counts rarities one by one and traits
    by key: selecting a rarity raises it by one, deselecting one of a
    duplicate-free array lowers it by one, selecting a value of a trait with
    no selection raises it by one, and selecting a further value of a trait
    that has a selection leaves it as it is. *)
Theorem activeFilterCount_toggle (p : Props) (r : RarityLevel) (t v : string) :
  (r ∉ rarities (filters p) →
     activeFilterCount (with_filters (toggleRarity (filters p) r) p)
     = S (activeFilterCount p))
  ∧ (NoDup (rarities (filters p)) → r ∈ rarities (filters p) →
     S (activeFilterCount (with_filters (toggleRarity (filters p) r) p))
     = activeFilterCount p)
  ∧ (traits (filters p) !! t = None →
     activeFilterCount (with_filters (toggleTraitValue (filters p) t v) p)
     = S (activeFilterCount p))
  ∧ (∀ vs, traits (filters p) !! t = Some vs → vs ≠ [] → v ∉ vs →
     activeFilterCount (with_filters (toggleTraitValue (filters p) t v) p)
     = activeFilterCount p).
Proof.
  destruct p as [[pr rs ss m cur sb] mp].
  unfold activeFilterCount, with_filters, toggleRarity, toggleTraitValue,
    set_rarities, set_traits.
  cbn [filters maxPrice priceRange rarities statuses traits].
  change (if bool_decide (r ∈ rs) then filter (λ x, x ≠ r) rs else rs ++ [r])
    with (toggled r rs).
  split; [|split; [|split]].
  - intros Hr. rewrite (length_toggled_unselected r rs Hr). lia.
  - intros Hnd Hr. rewrite <- (length_toggled_selected r rs Hnd Hr). lia.
  - intros Ht.
    assert (Hcur : currentValues m t = []) by (unfold currentValues; rewrite Ht; reflexivity).
    assert (Hnv : newValues m t v = [v]).
    { rewrite newValues_unselected; rewrite Hcur; [reflexivity | apply not_elem_of_nil]. }
    rewrite newTraits_cons by (rewrite Hnv; discriminate).
    rewrite map_size_insert_None by exact Ht. lia.
  - intros vs Ht Hne Hv.
    assert (Hcur : currentValues m t = vs) by (unfold currentValues; rewrite Ht; reflexivity).
    assert (Hnv : newValues m t v = vs ++ [v]).
    { rewrite newValues_unselected; rewrite Hcur; [reflexivity | exact Hv]. }
    rewrite newTraits_cons by (rewrite Hnv; destruct vs; discriminate).
    rewrite map_size_insert_Some by (rewrite Ht; eauto). reflexivity.
Qed.

(** X7. When both price buffers parse to numbers other than zero, the
    range handed to [onFiltersChange] does not depend on which buffer holds
    which of the two. *)
Theorem applyPriceRange_symmetric (p : Props) (a b : string) :
  truthy (parseFloat a) = true → truthy (parseFloat b) = true →
  emitted (applyPriceRange p (mkLocal a b)) = emitted (applyPriceRange p (mkLocal b a))
  ∧ emitted (applyPriceRange p (mkLocal a b))
    = [set_priceRange (Math_min (parseFloat a) (parseFloat b),
                       Math_max (parseFloat a) (parseFloat b)) (filters p)].
Proof.
  intros Ha Hb. unfold applyPriceRange, or_else. cbn [emitted localPriceMin localPriceMax].
  rewrite Ha, Hb.
  rewrite (Math_min_comm (parseFloat b)), (Math_max_comm (parseFloat b)).
  split; reflexivity.
Qed.

End WithBuiltins.

Lemma applyPriceRange_symmetric_witness :
  let _ := SampleRuntime.sample_builtins in
  truthy (parseFloat "500") = true ∧ truthy (parseFloat "20") = true
  ∧ emitted (applyPriceRange Samples.filter_props (mkLocal "500" "20"))
    = emitted (applyPriceRange Samples.filter_props (mkLocal "20" "500")).
Proof.
  split; [reflexivity|]. split; [reflexivity|].
  exact (proj1 (@applyPriceRange_symmetric SampleRuntime.sample_builtins
                  Samples.filter_props "500" "20" eq_refl eq_refl)).
Defined.

End FilterCountFacts.

(** ** BurnNFTModal: submission and reopening *)

Section BurnNFTModalSubmitFacts.
Import JS.

(** X8. A burn that the parent rejects keeps the typed confirmation, so
    that the user can retry at once, shows the failure message and ends the
    busy state; a burn that succeeds clears the error. Opening the modal
    empties the confirmation: whatever was typed before, the burn button is
    disabled and [handleBurn] does nothing until the text is typed again. *)
Theorem handleBurn_outcome (p : BurnNFTModal.Props) (st : BurnNFTModal.State) (ok : bool) :
  BurnNFTModal.isConfirmed st = true → BurnNFTModal.hasEnoughGas p = true →
  fst (BurnNFTModal.handleBurn p false st)
    = BurnNFTModal.mkState (BurnNFTModal.confirmText st) false
        (Some "Failed to burn NFT. Please try again.")
  ∧ BurnNFTModal.isConfirmed (fst (BurnNFTModal.handleBurn p false st)) = true
  ∧ fst (BurnNFTModal.handleBurn p true st)
    = BurnNFTModal.mkState (BurnNFTModal.confirmText st) false None
  ∧ BurnNFTModal.burn_disabled p (BurnNFTModal.onOpen (fst (BurnNFTModal.handleBurn p ok st)))
    = true
  ∧ BurnNFTModal.handleBurn p ok (BurnNFTModal.onOpen (fst (BurnNFTModal.handleBurn p ok st)))
    = (BurnNFTModal.onOpen (fst (BurnNFTModal.handleBurn p ok st)), []).
Proof.
  intros Hc Hg. unfold BurnNFTModal.handleBurn. rewrite Hc, Hg. cbn [negb orb fst].
  split; [reflexivity|]. split; [exact Hc|]. split; [reflexivity|].
  unfold BurnNFTModal.burn_disabled, BurnNFTModal.onOpen, BurnNFTModal.isConfirmed.
  cbn [BurnNFTModal.confirmText]. rewrite Hg.
  change (bool_decide (toUpperCase "" = BurnNFTModal.requiredConfirmText)) with false.
  cbn [negb]. rewrite orb_true_r. split; reflexivity.
Qed.

End BurnNFTModalSubmitFacts.

Section BurnNFTModalWitnesses.
Import JS.

Lemma handleBurn_outcome_witness :
  BurnNFTModal.isConfirmed Samples.burn_typed = true
  ∧ BurnNFTModal.hasEnoughGas Samples.burn_props = true
  ∧ BurnNFTModal.confirmText
      (fst (BurnNFTModal.handleBurn Samples.burn_props false Samples.burn_typed)) = "burn"
  ∧ BurnNFTModal.isConfirmed
      (fst (BurnNFTModal.handleBurn Samples.burn_props false Samples.burn_typed)) = true.
Proof.
  pose proof (handleBurn_outcome Samples.burn_props Samples.burn_typed false
                eq_refl eq_refl) as (Hst & Hconf & _).
  split; [reflexivity|]. split; [reflexivity|].
  split; [rewrite Hst; reflexivity | exact Hconf].
Defined.

End BurnNFTModalWitnesses.

(** ** CancelListingModal: cancellation and the time left *)

Section CancelListingModalFacts.
Import JS CancelListingModal.

(** X9. [handleCancel] depends on the balance alone. Below the gas
    estimate 0.0004 it does nothing and the button is disabled. Otherwise it
    calls [onCancel] with the listing id, then [onClose] when the call
    succeeds, or shows the failure message when it does not; the button is
    then disabled only while loading. Whether the listing is an auction with
    bids plays no part: two listings with the same id and balance are
    cancelled alike. *)
Theorem handleCancel_outcome (p : Props) (st : State) (ok : bool) :
  (hasEnoughGas p = false →
     handleCancel p ok st = (st, []) ∧ cancel_disabled p st = true)
  ∧ (hasEnoughGas p = true →
     snd (handleCancel p ok st)
       = OnCancel (id (listing p)) :: (if ok then [OnClose] else [])
     ∧ error (fst (handleCancel p ok st))
       = (if ok then None else Some "Failed to cancel listing. Please try again."%string)
     ∧ isSubmitting (fst (handleCancel p ok st)) = false
     ∧ cancel_disabled p st = loading p st)
  ∧ (∀ p', userBalance p' = userBalance p → id (listing p') = id (listing p) →
     handleCancel p' ok st = handleCancel p ok st)
  ∧ hasEnoughGas p = ge (userBalance p) (dec 4 4).
Proof.
  unfold handleCancel, cancel_disabled.
  split; [intros ->; rewrite orb_true_r; auto|].
  split; [intros ->; rewrite orb_false_r; destruct ok; auto|].
  split; [|reflexivity].
  intros p' Hb Hi. unfold hasEnoughGas. rewrite Hb, Hi. reflexivity.
Qed.

Lemma formatDuration_unfold (now date : Z) :
  formatDuration now date
  = if (0 <? (date - now) / 86400000)%Z
    then pretty ((date - now) / 86400000)%Z +:+ "d "
         +:+ pretty (Z.rem (date - now) 86400000 / 3600000)%Z +:+ "h remaining"
    else if (0 <? Z.rem (date - now) 86400000 / 3600000)%Z
    then pretty (Z.rem (date - now) 86400000 / 3600000)%Z +:+ "h remaining"
    else "Expiring soon".
Proof. reflexivity. Qed.

(** X10. [formatDuration], by the time left [date - now] in milliseconds:
    below one hour (and for a date in the past) the text is "Expiring soon";
    from one hour up to one day it is the number of whole hours, between 1
    and 23; from one day on it is the number of whole days and the number of
    whole hours of the rest, between 0 and 23. *)
Theorem formatDuration_cases (now date : Z) :
  ((date - now < MS_PER_HOUR)%Z → formatDuration now date = "Expiring soon"%string)
  ∧ ((MS_PER_HOUR ≤ date - now < MS_PER_DAY)%Z →
     formatDuration now date = pretty ((date - now) / MS_PER_HOUR)%Z +:+ "h remaining"
     ∧ (1 ≤ (date - now) / MS_PER_HOUR ≤ 23)%Z)
  ∧ ((MS_PER_DAY ≤ date - now)%Z →
     ∃ d h : Z,
       formatDuration now date = pretty d +:+ "d " +:+ pretty h +:+ "h remaining"
       ∧ (1 ≤ d)%Z ∧ (0 ≤ h ≤ 23)%Z
       ∧ (d * MS_PER_DAY + h * MS_PER_HOUR ≤ date - now
          < d * MS_PER_DAY + (h + 1) * MS_PER_HOUR)%Z).
Proof.
  rewrite formatDuration_unfold.
  change MS_PER_HOUR with 3600000%Z. change MS_PER_DAY with 86400000%Z.
  set (diff := (date - now)%Z). clearbody diff.
  split; [|split].
  - intros Hd.
    destruct (Z.ltb_spec 0 (diff / 86400000)) as [Hdays|Hdays];
      [exfalso; Z.to_euclidean_division_equations; lia|].
    destruct (Z.ltb_spec 0 (Z.rem diff 86400000 / 3600000)) as [Hh|Hh];
      [exfalso; Z.to_euclidean_division_equations; lia | reflexivity].
  - intros Hd.
    destruct (Z.ltb_spec 0 (diff / 86400000)) as [Hdays|Hdays];
      [exfalso; Z.to_euclidean_division_equations; lia|].
    assert (Hrem : Z.rem diff 86400000 = diff)
      by (Z.to_euclidean_division_equations; lia).
    rewrite Hrem.
    destruct (Z.ltb_spec 0 (diff / 3600000)) as [Hh|Hh];
      [|exfalso; Z.to_euclidean_division_equations; lia].
    split; [reflexivity | Z.to_euclidean_division_equations; lia].
  - intros Hd.
    destruct (Z.ltb_spec 0 (diff / 86400000)) as [Hdays|Hdays];
      [|exfalso; Z.to_euclidean_division_equations; lia].
    exists (diff / 86400000)%Z, (Z.rem diff 86400000 / 3600000)%Z.
    split; [reflexivity|]. Z.to_euclidean_division_equations. lia.
Qed.

End CancelListingModalFacts.

(** ** ListNFTModal: validation and submission *)

Section ListNFTModalFormFacts.
Import JS ListNFTModal.
Context `{Builtins}.

Lemma lt_nan_l (x y : number) : is_nan x = true → lt x y = false.
Proof. destruct x; simpl; try discriminate. reflexivity. Qed.

Lemma le_nan_l (x y : number) : is_nan x = true → le x y = false.
Proof. destruct x; simpl; try discriminate. reflexivity. Qed.

Lemma le_nan_r (x y : number) : is_nan y = true → le x y = false.
Proof. destruct y; simpl; try discriminate. destruct x as [[]|[]| |[] ? ?]; reflexivity. Qed.

Lemma ListNFT_newErrors_empty (p : Props) (st : State) :
  newErrors p st = ∅ ↔
    nonempty (price st) = true
    ∧ lt (parseFloat (price st)) MIN_LISTING_PRICE = false
    ∧ (listingType st = Auction →
         nonempty (reservePrice st)
           && ge (parseFloat (reservePrice st)) (parseFloat (price st)) = false
         ∧ nonempty (buyNowPrice st)
           && le (parseFloat (buyNowPrice st)) (parseFloat (price st)) = false)
    ∧ lt (userBalance p) estimatedGas = false.
Proof.
  unfold newErrors.
  destruct (nonempty (price st)) eqn:Hp,
    (lt (parseFloat (price st)) MIN_LISTING_PRICE) eqn:Hm,
    (lt (userBalance p) estimatedGas) eqn:Hg,
    (listingType st) eqn:Ht;
    cbn [negb orb];
    try destruct (nonempty (reservePrice st)
                  && ge (parseFloat (reservePrice st)) (parseFloat (price st))) eqn:Hr;
    try destruct (nonempty (buyNowPrice st)
                  && le (parseFloat (buyNowPrice st)) (parseFloat (price st))) eqn:Hb;
    (split;
     [ intros He;
       try (exfalso; revert He;
            first [apply insert_non_empty | apply map_non_empty_singleton]);
       repeat split; auto; congruence
     | intros (H1 & H2 & H3 & H4); try discriminate;
       try (destruct (H3 eq_refl); discriminate); reflexivity ]).
Qed.

Lemma ListNFT_validate_true (p : Props) (st : State) :
  fst (validate p st) = true ↔ newErrors p st = ∅.
Proof.
  unfold validate. cbn [fst]. rewrite bool_decide_eq_true. apply map_size_empty_iff.
Qed.

(** X11. [validate] of the listing form accepts exactly when the price text
    is not empty and does not parse to a number below 0.001, for an auction
    a reserve price that is typed parses below the price and a buy-now
    price that is typed parses above it, and the balance is not below the
    gas estimate 0.001. When it rejects, [handleSubmit] records the errors
    and calls nothing. *)
Theorem ListNFT_validate_iff (p : Props) (st : State) (ok : bool) :
  (fst (validate p st) = true ↔
     nonempty (price st) = true
     ∧ lt (parseFloat (price st)) MIN_LISTING_PRICE = false
     ∧ (listingType st = Auction →
          nonempty (reservePrice st)
            && ge (parseFloat (reservePrice st)) (parseFloat (price st)) = false
          ∧ nonempty (buyNowPrice st)
            && le (parseFloat (buyNowPrice st)) (parseFloat (price st)) = false)
     ∧ lt (userBalance p) estimatedGas = false)
  ∧ (fst (validate p st) = false →
     handleSubmit p ok st = (set_errors (newErrors p st) st, [])).
Proof.
  split.
  - rewrite ListNFT_validate_true. apply ListNFT_newErrors_empty.
  - unfold handleSubmit, validate. cbn [fst]. intros ->. reflexivity.
Qed.

Lemma ListNFT_handleSubmit_valid (p : Props) (ok : bool) (st : State) :
  fst (validate p st) = true →
  handleSubmit p ok st
  = (if ok then set_isSubmitting false (set_errors (newErrors p st) st)
     else set_isSubmitting false
            (set_errors {[ "submit" := "Failed to list NFT. Please try again." ]}
               (set_errors (newErrors p st) st)),
     OnList (listingData p st) :: (if ok then [OnClose] else [])).
Proof.
  unfold handleSubmit, validate. cbn [fst]. intros ->. cbn [negb].
  destruct ok; reflexivity.
Qed.

(** X12. A price text that is not empty and does not parse to a number
    passes validation, for a fixed-price listing and for an auction alike,
    whatever the reserve and buy-now texts are: every comparison with [NaN]
    is false. [handleSubmit] then calls [onList] with the price [NaN]. *)
Theorem ListNFT_unparsable_price_submitted (p : Props) (st : State) (ok : bool) :
  nonempty (price st) = true →
  is_nan (parseFloat (price st)) = true →
  lt (userBalance p) estimatedGas = false →
  fst (validate p st) = true
  ∧ snd (handleSubmit p ok st)
    = OnList (listingData p st) :: (if ok then [OnClose] else [])
  ∧ is_nan (ld_price (listingData p st)) = true.
Proof.
  intros Hp Hn Hg.
  assert (Hv : fst (validate p st) = true).
  { apply ListNFT_validate_true, ListNFT_newErrors_empty. split; [exact Hp|].
    split; [apply lt_nan_l; exact Hn|]. split; [|exact Hg].
    intros _. unfold ge. rewrite (le_nan_l _ _ Hn), (le_nan_r _ _ Hn), !andb_false_r. auto. }
  split; [exact Hv|]. rewrite (ListNFT_handleSubmit_valid p ok st Hv).
  split; [reflexivity | exact Hn].
Qed.

(** X13. For a fixed-price listing the reserve and buy-now texts are not
    validated, and the listing that is submitted still carries them when
    they are not empty. *)
Theorem ListNFT_fixed_carries_auction_fields (p : Props) (st : State) :
  listingType st = Fixed →
  newErrors p st !! "reservePrice" = None
  ∧ newErrors p st !! "buyNowPrice" = None
  ∧ (nonempty (reservePrice st) = true →
     ld_reservePrice (listingData p st) = Some (parseFloat (reservePrice st)))
  ∧ (nonempty (buyNowPrice st) = true →
     ld_buyNowPrice (listingData p st) = Some (parseFloat (buyNowPrice st)))
  ∧ ld_listingType (listingData p st) = Fixed.
Proof.
  intros Ht. unfold newErrors, listingData. rewrite Ht.
  cbn [ld_reservePrice ld_buyNowPrice ld_listingType].
  assert (Hlook : ∀ k : string, k ≠ "price"%string → k ≠ "balance"%string →
    ∀ e0 : gmap string string, e0 = ∅ ∨ e0 = {[ "price"%string := price_message ]} →
    (if lt (userBalance p) estimatedGas
     then <[ "balance"%string := "Insufficient balance for gas fees"%string ]> e0
     else e0) !! k = None).
  { intros k Hk1 Hk2 e0 He0.
    destruct (lt (userBalance p) estimatedGas);
      [rewrite lookup_insert_ne by congruence|];
      (destruct He0 as [-> | ->];
       [apply lookup_empty | apply lookup_singleton_ne; congruence]). }
  assert (He0 : ∀ b : bool,
    (if b then ({[ "price"%string := price_message ]} : gmap string string) else ∅) = ∅
    ∨ (if b then ({[ "price"%string := price_message ]} : gmap string string) else ∅)
      = {[ "price"%string := price_message ]}).
  { intros []; auto. }
  split; [apply Hlook; [discriminate | discriminate | apply He0]|].
  split; [apply Hlook; [discriminate | discriminate | apply He0]|].
  split; [intros ->; reflexivity|]. split; [intros ->; reflexivity | reflexivity].
Qed.

(** X14. With a price text that is empty, unparsable or zero, the fee, the
    royalty and the proceeds of the breakdown are all zero. *)
Theorem ListNFT_no_price_no_proceeds (price : string) :
  truthy (parseFloat price) = false →
  priceValue price = of_Z 0
  ∧ marketplaceFee price = of_Z 0
  ∧ creatorRoyalty price = of_Z 0
  ∧ youReceive price = of_Z 0.
Proof.
  intros Ht.
  assert (Hp : priceValue price = of_Z 0) by (unfold priceValue, or_else; rewrite Ht; reflexivity).
  unfold youReceive, marketplaceFee, creatorRoyalty. rewrite Hp.
  repeat split; vm_compute; reflexivity.
Qed.

End ListNFTModalFormFacts.

Section ListNFTModalWitnesses.
Import JS ListNFTModal.

Lemma ListNFT_unparsable_price_submitted_witness :
  let _ := SampleRuntime.sample_builtins in
  nonempty (price Samples.list_unparsable) = true
  ∧ is_nan (parseFloat (price Samples.list_unparsable)) = true
  ∧ fst (validate Samples.list_props Samples.list_unparsable) = true.
Proof.
  split; [reflexivity|]. split; [reflexivity|].
  exact (proj1 (@ListNFT_unparsable_price_submitted SampleRuntime.sample_builtins
                  Samples.list_props Samples.list_unparsable true
                  eq_refl eq_refl eq_refl)).
Defined.

Lemma ListNFT_fixed_carries_auction_fields_witness :
  let _ := SampleRuntime.sample_builtins in
  let st := mkState Fixed "10" (of_Z 7) "50" "" ∅ false in
  listingType st = Fixed
  ∧ ld_reservePrice (listingData Samples.list_props st) = Some (of_Z 50).
Proof.
  split; [reflexivity|].
  exact (proj1 (proj2 (proj2
    (@ListNFT_fixed_carries_auction_fields SampleRuntime.sample_builtins
       Samples.list_props (mkState Fixed "10" (of_Z 7) "50" "" ∅ false) eq_refl)))
    eq_refl).
Defined.

Lemma ListNFT_no_price_no_proceeds_witness :
  let _ := SampleRuntime.sample_builtins in
  truthy (parseFloat "") = false ∧ youReceive "" = of_Z 0.
Proof.
  split; [reflexivity|].
  exact (proj2 (proj2 (proj2
    (@ListNFT_no_price_no_proceeds SampleRuntime.sample_builtins "" eq_refl)))).
Defined.

End ListNFTModalWitnesses.

(** ** MakeOfferModal: validation, submission and quick offers *)

Section MakeOfferModalFormFacts.
Import JS MakeOfferModal.
Context `{Builtins}.

(** X15. [validate] of the offer form accepts exactly when the amount text
    is not empty, the offer is above zero, one of the two balances covers
    it, and, when there is a positive reference price, the offer is not
    below a tenth of it. *)
Theorem MakeOffer_validate_iff (p : Props) (st : State) :
  fst (validate p st) = true ↔
    nonempty (amount st) = true
    ∧ le (offerAmount st) (of_Z 0) = false
    ∧ hasEnoughBalance p st = true
    ∧ gt (referencePrice p) (of_Z 0)
      && lt (offerAmount st) (mul (referencePrice p) (div MIN_OFFER_PERCENT (of_Z 100)))
      = false.
Proof.
  unfold validate. cbn [fst]. rewrite bool_decide_eq_true, map_size_empty_iff.
  unfold newErrors.
  destruct (nonempty (amount st)), (le (offerAmount st) (of_Z 0)),
    (hasEnoughBalance p st),
    (gt (referencePrice p) (of_Z 0)
     && lt (offerAmount st) (mul (referencePrice p) (div MIN_OFFER_PERCENT (of_Z 100))));
    cbn [negb orb];
    (split;
     [ intros He; try (exfalso; revert He; apply map_non_empty_singleton); auto
     | intros (H1 & H2 & H3 & H4); try discriminate; reflexivity ]).
Qed.

(** X16. The messages of [validate] in their order of precedence: an empty
    amount or an offer that is not above zero asks for an amount, whatever
    the balances are; otherwise an offer that the balances cover and that is
    below a tenth of a positive reference price gets the minimum-offer
    message; the error map never has a key other than [amount]. *)
Theorem MakeOffer_messages (p : Props) (st : State) :
  (nonempty (amount st) = false ∨ le (offerAmount st) (of_Z 0) = true →
     newErrors p st = {[ "amount" := "Please enter an offer amount" ]})
  ∧ (nonempty (amount st) = true → le (offerAmount st) (of_Z 0) = false →
     hasEnoughBalance p st = true →
     gt (referencePrice p) (of_Z 0) = true →
     lt (offerAmount st) (mul (referencePrice p) (div (of_Z 10) (of_Z 100))) = true →
     newErrors p st
     = {[ "amount" := "Minimum offer is " +:+ numberToString (of_Z 10)
                      +:+ "% of floor price" ]})
  ∧ (∀ k : string, k ≠ "amount"%string → newErrors p st !! k = None).
Proof.
  unfold newErrors. split; [|split].
  - intros [-> | Hz]; [reflexivity|]. rewrite Hz, orb_true_r. reflexivity.
  - intros -> -> -> Hr Hm. cbn [negb orb].
    unfold MIN_OFFER_PERCENT. rewrite Hr, Hm. reflexivity.
  - intros k Hk.
    destruct (negb (nonempty (amount st)) || le (offerAmount st) (of_Z 0));
      [apply lookup_singleton_ne; congruence|].
    destruct (negb (hasEnoughBalance p st)); [apply lookup_singleton_ne; congruence|].
    destruct (gt (referencePrice p) (of_Z 0)
              && lt (offerAmount st)
                    (mul (referencePrice p) (div MIN_OFFER_PERCENT (of_Z 100))));
      [apply lookup_singleton_ne; congruence | apply lookup_empty].
Qed.

(** X17. Once the offer form validates, [handleSubmit] calls [onOffer]
    with the NFT's id, the parsed amount, the expiration and the trimmed
    message (absent when empty). When the call fails the amount, the
    expiration and the message are kept, the error map is the one
    submission message and the busy state ends; when it succeeds [onClose]
    follows. *)
Theorem MakeOffer_handleSubmit_outcome (p : Props) (st : State) (ok : bool) :
  fst (validate p st) = true →
  snd (handleSubmit p ok st)
    = OnOffer (mkOfferData (id (nft p)) (offerAmount st) (expiration st)
                           (or_undefined (trim (message st))))
      :: (if ok then [OnClose] else [])
  ∧ amount (fst (handleSubmit p ok st)) = amount st
  ∧ expiration (fst (handleSubmit p ok st)) = expiration st
  ∧ message (fst (handleSubmit p ok st)) = message st
  ∧ isSubmitting (fst (handleSubmit p ok st)) = false
  ∧ errors (fst (handleSubmit p false st))
    = {[ "submit" := "Failed to submit offer. Please try again." ]}.
Proof.
  unfold handleSubmit, validate. cbn [fst]. intros ->. cbn [negb].
  destruct ok; repeat split.
Qed.

(** X18. The reference price is never [NaN], and it is zero when neither
    the listed price nor the floor price is a number other than zero.
    Without a positive reference price a quick offer changes nothing; with
    one it writes the amount, with four decimals, and nothing else. *)
Theorem setQuickOffer_effect (p : Props) (percent : number) (st : State) :
  is_nan (referencePrice p) = false
  ∧ (opt_truthy (currentPrice (nft p)) = false → opt_truthy (floorPrice (nft p)) = false →
     referencePrice p = of_Z 0)
  ∧ (gt (referencePrice p) (of_Z 0) = false → setQuickOffer p percent st = st)
  ∧ (gt (referencePrice p) (of_Z 0) = true →
     setQuickOffer p percent st
     = mkState (toFixed (div (mul (referencePrice p) percent) (of_Z 100)) 4)
               (expiration st) (message st) (errors st) (isSubmitting st)).
Proof.
  split; [|split; [|split]].
  - unfold referencePrice.
    destruct (currentPrice (nft p)) as [[]|], (floorPrice (nft p)) as [[]|]; reflexivity.
  - unfold referencePrice. intros -> ->. reflexivity.
  - unfold setQuickOffer. intros ->. reflexivity.
  - unfold setQuickOffer. intros ->. reflexivity.
Qed.

End MakeOfferModalFormFacts.

Section MakeOfferModalWitnesses.
Import JS MakeOfferModal.

Lemma MakeOffer_handleSubmit_outcome_witness :
  let _ := SampleRuntime.sample_builtins in
  fst (validate Samples.offer_props Samples.offer_of_5) = true
  ∧ snd (handleSubmit Samples.offer_props false Samples.offer_of_5)
    = [OnOffer (mkOfferData "nft-7" (of_Z 5) (of_Z 7) (Some "hello"))]
  ∧ amount (fst (handleSubmit Samples.offer_props false Samples.offer_of_5)) = "5".
Proof.
  pose proof (@MakeOffer_handleSubmit_outcome SampleRuntime.sample_builtins
                Samples.offer_props Samples.offer_of_5 false eq_refl)
    as (Hcalls & Hamount & _).
  split; [reflexivity|]. split; [exact Hcalls | exact Hamount].
Defined.

End MakeOfferModalWitnesses.

(** ** TransferNFTModal: patterns, continuation, memo and retry *)

Section TransferNFTModalFormFacts.
Import JS Regex TransferNFTModal.

(** X19. The direct-address pattern accepts exactly the strings made of
    ["SP"] and 39 upper-case letters or digits; such a string has 41 code
    units and is never a domain name. *)
Theorem STACKS_ADDRESS_REGEX_accepts (a : string) :
  (test STACKS_ADDRESS_REGEX a = true ↔
     ∃ t, a = "SP" +:+ t ∧ String.length t = 39 ∧ all_chars upper_alnum t = true)
  ∧ (test STACKS_ADDRESS_REGEX a = true →
     String.length a = 41 ∧ startsWith a "SP" = true ∧ test BNS_DOMAIN_REGEX a = false).
Proof.
  split; [apply STACKS_ADDRESS_shape|].
  intros Hs. destruct (STACKS_ADDRESS_prefix_length a Hs) as [Hp Hl].
  split; [exact Hl|]. split; [exact Hp | apply STACKS_ADDRESS_not_BNS; exact Hs].
Qed.

(** X20. The domain pattern accepts exactly a non-empty name of letters of
    either case, digits and hyphens, followed by a dot and the letters
    [b], [t], [c], each in either case. *)
Theorem BNS_DOMAIN_REGEX_accepts (a : string) :
  test BNS_DOMAIN_REGEX a = true ↔
  ∃ (name : string) (c2 c3 c4 : ascii),
    a = name +:+ String "." (String c2 (String c3 (String c4 "")))
    ∧ name ≠ ""%string
    ∧ all_chars (λ c, is_lower c || is_upper c || is_digit c || bool_decide (c = "-"%char))
                name = true
    ∧ (c2 = "b" ∨ c2 = "B")%char ∧ (c3 = "t" ∨ c3 = "T")%char ∧ (c4 = "c" ∨ c4 = "C")%char.
Proof.
  assert (Hcls : ∀ s, all_chars (fold_case name_char) s
                      = all_chars (λ c, is_lower c || is_upper c || is_digit c
                                        || bool_decide (c = "-"%char)) s).
  { induction s as [|c s IH]; [reflexivity|].
    cbn [all_chars]. rewrite IH, fold_case_name_char. reflexivity. }
  rewrite BNS_DOMAIN_shape. split.
  - intros (name & c2 & c3 & c4 & Ha & Hne & Hall & Hrest).
    exists name, c2, c3, c4. rewrite <- Hcls. auto.
  - intros (name & c2 & c3 & c4 & Ha & Hne & Hall & Hrest).
    exists name, c2, c3, c4. rewrite Hcls. auto.
Qed.


Lemma trimStart_white (s : string) : all_chars is_white (trimStart s) = all_chars is_white s.
Proof.
  induction s as [|c s IH]; [reflexivity|]. simpl.
  destruct (is_white c) eqn:Hc; [exact IH|]. simpl. rewrite Hc. reflexivity.
Qed.

Lemma trimEnd_nil (s : string) : trimEnd s = ""%string ↔ all_chars is_white s = true.
Proof.
  induction s as [|c s IH]; [simpl; tauto|]. simpl.
  destruct (trimEnd s) as [|c' t] eqn:Ht.
  - destruct (is_white c); simpl.
    + rewrite <- IH. tauto.
    + split; discriminate.
  - split; [discriminate|]. intros [_ Hs]%andb_true_iff.
    apply IH in Hs. discriminate.
Qed.

Lemma trim_nil (s : string) : trim s = ""%string ↔ all_chars is_white s = true.
Proof. unfold trim. rewrite trimEnd_nil, trimStart_white. reflexivity. Qed.

Section WithBuiltins.
Context `{Builtins}.

Lemma validate_true_iff (p : Props) (st : State) :
  fst (validate p st) = true ↔
  nonempty (recipient st) = true ∧ addressValid st = Some true ∧ hasEnoughGas p = true.
Proof.
  unfold validate. cbn [fst]. rewrite bool_decide_eq_true, map_size_empty_iff.
  unfold newErrors.
  destruct (nonempty (recipient st)), (addressValid st) as [[]|], (hasEnoughGas p);
    cbn [negb default];
    (split;
     [ intros He;
       try (exfalso; revert He;
            first [apply insert_non_empty | apply map_non_empty_singleton]);
       auto
     | intros (H1 & H2 & H3); try discriminate; reflexivity ]).
Qed.

(** X22. [handleContinue] shows the confirmation exactly when the recipient
    is not empty, its verdict is "valid" and the balance covers the gas;
    the errors are then cleared. Otherwise it stays on the view it was on
    and records under [recipient] that the address is missing or invalid,
    and under [gas] that the balance is too low. *)
Theorem handleContinue_outcome (p : Props) (st : State) :
  (nonempty (recipient st) = true ∧ addressValid st = Some true ∧ hasEnoughGas p = true →
     handleContinue p st = set_showConfirmation true (set_errors ∅ st))
  ∧ (¬ (nonempty (recipient st) = true ∧ addressValid st = Some true
        ∧ hasEnoughGas p = true) →
     handleContinue p st = set_errors (newErrors p st) st
     ∧ newErrors p st ≠ ∅)
  ∧ newErrors p st !! "recipient"
    = (if negb (nonempty (recipient st)) then Some "Please enter a recipient address"%string
       else if negb (default false (addressValid st))
       then Some "Invalid Stacks address or BNS name"%string
       else None)
  ∧ newErrors p st !! "gas" = (if hasEnoughGas p then None else Some gas_message).
Proof.
  split; [|split; [|split]].
  - intros (Hr & Hv & Hg). unfold handleContinue.
    rewrite (validate_passes p st Hr Hv Hg). reflexivity.
  - intros Hnot. rewrite <- validate_true_iff in Hnot.
    apply not_true_is_false in Hnot.
    unfold handleContinue. unfold validate in *. cbn [fst] in Hnot. rewrite Hnot.
    split; [reflexivity|].
    apply bool_decide_eq_false in Hnot. rewrite map_size_empty_iff in Hnot. exact Hnot.
  - unfold newErrors.
    destruct (hasEnoughGas p); cbn [negb];
      [|rewrite lookup_insert_ne by discriminate];
      (destruct (negb (nonempty (recipient st)));
       [apply lookup_singleton_eq|];
       destruct (negb (default false (addressValid st)));
       [apply lookup_singleton_eq | apply lookup_empty]).
  - unfold newErrors.
    destruct (hasEnoughGas p); cbn [negb]; [|apply lookup_insert_eq].
    destruct (negb (nonempty (recipient st)));
      [apply lookup_singleton_ne; discriminate|].
    destruct (negb (default false (addressValid st)));
      [apply lookup_singleton_ne; discriminate | apply lookup_empty].
Qed.

(** X23. Once the debounced validation has run on the current recipient,
    an enabled primary button means that [handleContinue] shows the
    confirmation with no error. *)
Theorem continue_enabled_after_validation (p : Props) (st : State) :
  primary_disabled p (debounce_fires st) = false →
  view (handleContinue p (debounce_fires st)) = ConfirmationView
  ∧ errors (handleContinue p (debounce_fires st)) = ∅
  ∧ recipient (handleContinue p (debounce_fires st)) = recipient st.
Proof.
  unfold primary_disabled. intros Hd.
  apply orb_false_iff in Hd as [Hd Hg]. apply orb_false_iff in Hd as [_ Hv].
  apply negb_false_iff in Hg, Hv.
  assert (Hvalid : addressValid (debounce_fires st) = Some true).
  { destruct (addressValid (debounce_fires st)) as [[]|]; try discriminate. reflexivity. }
  destruct (validateAddress_frame (recipient st) st) as (Hrec & _).
  fold (debounce_fires st) in Hrec.
  assert (Hne : nonempty (recipient (debounce_fires st)) = true).
  { rewrite Hrec. destruct (nonempty (recipient st)) eqn:Hn; [reflexivity|].
    unfold debounce_fires, validateAddress in Hvalid. rewrite Hn in Hvalid.
    discriminate. }
  unfold handleContinue. rewrite (validate_passes p _ Hne Hvalid Hg).
  split; [reflexivity|]. split; [reflexivity | exact Hrec].
Qed.

(** X24. The memo is sent trimmed, and a memo of white space only (or an
    empty one) is not sent at all. *)
Theorem memo_trimmed_or_absent (p : Props) (st : State) :
  (all_chars is_white (memo st) = true → td_memo (transferData p st) = None)
  ∧ (all_chars is_white (memo st) = false →
     td_memo (transferData p st) = Some (trim (memo st)) ∧ trim (memo st) ≠ ""%string).
Proof.
  unfold transferData, or_undefined. cbn [td_memo]. split.
  - intros Hw%trim_nil. rewrite Hw. reflexivity.
  - intros Hw.
    assert (Hne : trim (memo st) ≠ ""%string).
    { intros Ht%trim_nil. congruence. }
    split; [|exact Hne]. destruct (trim (memo st)); [congruence | reflexivity].
Qed.

(** X25. After a transfer that failed, continuing and confirming again
    sends the same transfer: the form has kept what [onTransfer] needs. The
    failed attempt leaves the input view, from which [handleContinue]
    reaches the confirmation again. In a session this is three clicks on the
    primary button, starting in the confirmation view. *)
Theorem retry_after_failure (p : Props) (st : State) :
  fst (validate p st) = true →
  snd (handleSubmit p false st) = [OnTransfer (transferData p st)]
  ∧ view (fst (handleSubmit p false st)) = InputView
  ∧ view (handleContinue p (fst (handleSubmit p false st))) = ConfirmationView
  ∧ snd (handleSubmit p true (handleContinue p (fst (handleSubmit p false st))))
    = [OnTransfer (transferData p st); OnClose]
  ∧ (isLoading p = false → isSubmitting st = false → showConfirmation st = true →
     ∀ (n : nat) (cs : list Call) (ok' : bool),
       calls (run_from p [ClickPrimary false; ClickPrimary ok'; ClickPrimary true]
                (mkSession st n cs))
       = cs ++ [OnTransfer (transferData p st); OnTransfer (transferData p st); OnClose]).
Proof.
  intros Hv. pose proof Hv as (Hr & Ha & Hg)%validate_true_iff.
  rewrite (handleSubmit_valid p false st Hv). cbn [fst snd].
  unfold handleSubmit_settle. cbn [fst].
  set (st_f := set_isSubmitting false _).
  assert (Hpass : validate p st_f = (true, set_errors ∅ st_f)).
  { apply validate_passes; [exact Hr | exact Ha | exact Hg]. }
  assert (Hagain : snd (handleSubmit p true (handleContinue p st_f))
                   = [OnTransfer (transferData p st); OnClose]).
  { unfold handleContinue. rewrite Hpass.
    rewrite handleSubmit_valid
      by (rewrite validate_passes; [reflexivity | exact Hr | exact Ha | exact Hg]).
    reflexivity. }
  split; [reflexivity|]. split; [reflexivity|].
  split; [unfold handleContinue; rewrite Hpass; reflexivity|].
  split; [exact Hagain|].
  intros Hl Hs Hc n cs ok'.
  change (run_from p [ClickPrimary false; ClickPrimary ok'; ClickPrimary true]
            (mkSession st n cs))
    with (run_from p [ClickPrimary ok'; ClickPrimary true]
            (step p (ClickPrimary false) (mkSession st n cs))).
  unfold step at 1. cbn [form pending calls].
  rewrite (primary_enabled p st Hl Hs Ha Hg), Hc.
  rewrite (handleSubmit_valid p false st Hv).
  unfold handleSubmit_settle. cbn [fst]. fold st_f.
  rewrite (continue_confirm p st_f n _ ok' true Hl eq_refl eq_refl Hr Ha Hg).
  rewrite <- app_assoc. reflexivity.
Qed.

End WithBuiltins.

Lemma continue_enabled_after_validation_witness :
  let _ := SampleRuntime.sample_builtins in
  let st := set_recipient Samples.domain_name initial in
  primary_disabled Samples.transfer_props (debounce_fires st) = false
  ∧ view (handleContinue Samples.transfer_props (debounce_fires st)) = ConfirmationView.
Proof.
  split; [vm_compute; reflexivity|].
  exact (proj1 (@continue_enabled_after_validation SampleRuntime.sample_builtins
                  Samples.transfer_props (set_recipient Samples.domain_name initial)
                  ltac:(vm_compute; reflexivity))).
Defined.

Lemma retry_after_failure_witness :
  let _ := SampleRuntime.sample_builtins in
  fst (validate Samples.transfer_props Samples.transfer_confirming) = true
  ∧ snd (handleSubmit Samples.transfer_props true
           (handleContinue Samples.transfer_props
              (fst (handleSubmit Samples.transfer_props false Samples.transfer_confirming))))
    = [OnTransfer (mkTransferData "nft-7" (of_Z 7) mockResolvedAddress (Some "gift"));
       OnClose]
  ∧ calls (run Samples.transfer_props [ClickPrimary false; ClickPrimary true; ClickPrimary true]
             Samples.transfer_confirming)
    = [OnTransfer (mkTransferData "nft-7" (of_Z 7) mockResolvedAddress (Some "gift"));
       OnTransfer (mkTransferData "nft-7" (of_Z 7) mockResolvedAddress (Some "gift"));
       OnClose].
Proof.
  pose proof (@retry_after_failure SampleRuntime.sample_builtins
                Samples.transfer_props Samples.transfer_confirming eq_refl)
    as (_ & _ & _ & Hagain & Hrun).
  split; [reflexivity|]. split; [exact Hagain|].
  exact (Hrun eq_refl eq_refl eq_refl 0%nat [] true).
Defined.

End TransferNFTModalFormFacts.

(** ** useCollection: pages of the listing *)

Section UseCollectionPageFacts.
Import UseCollection.
Open Scope Z_scope.

Lemma generateMockNFTs_shift (count offset : Z) :
  generateMockNFTs count offset
  = map (λ i, mkNFT i (i + 1)) (seqZ offset count).
Proof.
  unfold generateMockNFTs.
  assert (Hs : seqZ offset count = Z.add offset <$> seqZ 0 count)
    by (rewrite fmap_add_seqZ, Z.add_0_r; reflexivity).
  rewrite Hs. change (map ?f ?l) with (f <$> l).
  rewrite <- list_fmap_compose. reflexivity.
Qed.

Lemma generateMockNFTs_app (a b offset : Z) :
  0 ≤ a → 0 ≤ b →
  generateMockNFTs (a + b) offset
  = generateMockNFTs a offset ++ generateMockNFTs b (offset + a).
Proof.
  intros Ha Hb. rewrite !generateMockNFTs_shift.
  rewrite seqZ_app by assumption. apply map_app.
Qed.

Lemma generateMockNFTs_nil (count offset : Z) : count ≤ 0 → generateMockNFTs count offset = [].
Proof. intros Hc. unfold generateMockNFTs. rewrite seqZ_nil by exact Hc. reflexivity. Qed.

(** X26. [generateMockNFTs count offset] has [count] items (none for a
    count that is not positive); the item at position [i] has the index
    [offset + i] and the token id [offset + i + 1], so token ids are the
    indices plus one and no token id occurs twice. *)
Theorem generateMockNFTs_items (count offset : Z) :
  length (generateMockNFTs count offset) = Z.to_nat count
  ∧ (∀ i : nat, Z.of_nat i < count →
       generateMockNFTs count offset !! i
       = Some (mkNFT (offset + Z.of_nat i) (offset + Z.of_nat i + 1)))
  ∧ Forall (λ n, tokenId n = nft_index n + 1) (generateMockNFTs count offset)
  ∧ NoDup (map tokenId (generateMockNFTs count offset)).
Proof.
  split; [|split; [|split]].
  - unfold generateMockNFTs. rewrite length_map. apply length_seqZ.
  - intros i Hi. unfold generateMockNFTs.
    change (map ?f ?l) with (f <$> l). rewrite list_lookup_fmap.
    rewrite lookup_seqZ_lt by exact Hi. reflexivity.
  - unfold generateMockNFTs. apply Forall_map. apply Forall_forall. intros; reflexivity.
  - rewrite generateMockNFTs_shift. rewrite map_map. cbn [tokenId].
    change (map ?f ?l) with (f <$> l).
    apply NoDup_fmap_2; [|apply NoDup_seqZ].
    intros x y Hxy. lia.
Qed.

(** X27. A completed [fetchNFTs total pageNum] fetches the items from the
    offset [(pageNum - 1) * 24] on, at most 24 of them, none when the
    offset is at or beyond [total] and 24 when the page lies within
    [total]; it replaces the list or appends to it, ends the loading state
    and leaves [page] and [totalCount] alone. *)
Theorem fetchNFTs_page (total pageNum : Z) (st : State) :
  let offset := (pageNum - 1) * PAGE_SIZE in
  let k := Z.min PAGE_SIZE (Z.max 0 (total - offset)) in
  nfts (fetchNFTs total pageNum false st) = generateMockNFTs k offset
  ∧ nfts (fetchNFTs total pageNum true st) = nfts st ++ generateMockNFTs k offset
  ∧ (length (generateMockNFTs k offset) ≤ 24)%nat
  ∧ (total ≤ offset → generateMockNFTs k offset = [])
  ∧ (pageNum * PAGE_SIZE ≤ total → length (generateMockNFTs k offset) = 24%nat)
  ∧ (∀ append, isLoading (fetchNFTs total pageNum append st) = false
               ∧ page (fetchNFTs total pageNum append st) = page st
               ∧ totalCount (fetchNFTs total pageNum append st) = totalCount st).
Proof.
  cbv zeta. unfold PAGE_SIZE.
  split; [reflexivity|]. split; [reflexivity|].
  split; [|split; [|split]].
  - unfold generateMockNFTs. rewrite length_map, length_seqZ. lia.
  - intros Hle. apply generateMockNFTs_nil. lia.
  - intros Hle. unfold generateMockNFTs. rewrite length_map, length_seqZ. lia.
  - intros append. repeat split.
Qed.

(** X28. Pages loaded in order accumulate a prefix of the collection: when
    the list holds the items before page [pageNum] (all of them, when the
    collection ends earlier), appending page [pageNum] makes it hold the
    items up to the end of that page. *)
Theorem fetchNFTs_accumulates (total pageNum : Z) (st : State) :
  1 ≤ pageNum → 0 ≤ total →
  nfts st = generateMockNFTs (Z.min ((pageNum - 1) * PAGE_SIZE) total) 0 →
  nfts (fetchNFTs total pageNum true st)
  = generateMockNFTs (Z.min (pageNum * PAGE_SIZE) total) 0.
Proof.
  unfold PAGE_SIZE. intros Hp Ht Hn. unfold fetchNFTs, PAGE_SIZE. cbn [nfts]. rewrite Hn.
  destruct (Z.le_gt_cases ((pageNum - 1) * 24) total) as [Hle|Hgt].
  - rewrite (Z.min_l _ _ Hle).
    rewrite <- (Z.add_0_l ((pageNum - 1) * 24)) at 2.
    rewrite <- generateMockNFTs_app by lia.
    f_equal. lia.
  - rewrite (Z.min_r ((pageNum - 1) * 24) total) by lia.
    rewrite (generateMockNFTs_nil (Z.min 24 _)) by lia.
    rewrite app_nil_r. f_equal. lia.
Qed.

Lemma fetchNFTs_accumulates_witness :
  let st := fetchNFTs 30 1 false (fetchCollection initial) in
  nfts st = generateMockNFTs (Z.min ((2 - 1) * PAGE_SIZE) 30) 0
  ∧ length (nfts (fetchNFTs 30 2 true st)) = 30%nat
  ∧ nfts (fetchNFTs 30 2 true st) = generateMockNFTs (Z.min (2 * PAGE_SIZE) 30) 0.
Proof.
  split; [reflexivity|]. split; [reflexivity|].
  exact (fetchNFTs_accumulates 30 2 (fetchNFTs 30 1 false (fetchCollection initial))
           ltac:(lia) ltac:(lia) eq_refl).
Defined.

(** X29. [fetchMore] does nothing while a fetch is loading or when
    [hasMore] is false, and otherwise moves to the next page and changes
    nothing else. In particular it does nothing after the fetch of a page
    that reaches the end of the collection, and moves on after the fetch of
    a page that does not. *)
Theorem fetchMore_guard (st : State) :
  (hasMore st = false ∨ isLoading st = true → fetchMore st = st)
  ∧ (hasMore st = true → isLoading st = false → fetchMore st = setPage (page st + 1) st)
  ∧ (∀ total pageNum append, total ≤ pageNum * PAGE_SIZE →
       fetchMore (fetchNFTs total pageNum append st) = fetchNFTs total pageNum append st)
  ∧ (∀ total pageNum append, pageNum * PAGE_SIZE < total →
       page (fetchMore (fetchNFTs total pageNum append st)) = page st + 1
       ∧ nfts (fetchMore (fetchNFTs total pageNum append st))
         = nfts (fetchNFTs total pageNum append st)).
Proof.
  split; [|split; [|split]].
  - unfold fetchMore. intros [-> | ->]; [reflexivity | rewrite orb_true_r; reflexivity].
  - unfold fetchMore. intros -> ->. reflexivity.
  - intros total pageNum append Hle. unfold fetchMore.
    rewrite fetchNFTs_hasMore. rewrite (proj2 (Z.ltb_ge _ _) Hle). reflexivity.
  - intros total pageNum append Hlt. unfold fetchMore.
    rewrite fetchNFTs_hasMore. rewrite (proj2 (Z.ltb_lt _ _) Hlt).
    split; reflexivity.
Qed.

End UseCollectionPageFacts.
